(** * financial_analyzer: indicator pipeline of [main.py]

    A shallow embedding of the three stages of [main.py]
    ([calculate_indicators], [analyze_performance] and the main block) and
    of the pandas primitives they call, over the real numbers.

    Conventions.
    - A float64 cell is [option R]: [None] is the missing value (NaN),
      [Some x] a finite price or indicator.  The program is run in exact
      real arithmetic.  The two steps that are sensitive to rounding and
      overflow are also run in binary64, in module [F64]: the online
      variance kernel, written once over an arithmetic interface, and
      the quotient of [pct_change], written a second time over floats.
    - A column ([pandas.Series]) is a list of cells in row order; a table
      ([pandas.DataFrame]) is a row index and an ordered association list
      of named columns (column order matters to the frame properties).
    - Console output is a list of [event]s; exceptions are the [Raise]
      outcome of the [M] monad. *)

From Stdlib Require Import Reals Lra Lia String Ascii Bool Arith List Sorted.
From Stdlib Require Floats.
Import ListNotations.

Set Implicit Arguments.

(** ** Cells and columns *)

Definition cell := option R.
Definition Series := list cell.

Definition notna (c : cell) : bool :=
  match c with Some _ => true | None => false end.

(** The observations of a window: its non-missing cells, in order. *)
Fixpoint valid (w : list cell) : list R :=
  match w with
  | [] => []
  | Some x :: t => x :: valid t
  | None :: t => valid t
  end.

Definition Rsum (xs : list R) : R := fold_right Rplus 0%R xs.

Definition mean (xs : list R) : R := (Rsum xs / INR (length xs))%R.

(** Sum of squared deviations from the mean, and the standard deviation
    with [ddof] delta degrees of freedom (divisor [N - ddof]). *)
Definition ssqdm (xs : list R) : R :=
  Rsum (map (fun x => ((x - mean xs) * (x - mean xs))%R) xs).

Definition std (ddof : nat) (xs : list R) : R :=
  sqrt (ssqdm xs / (INR (length xs) - INR ddof)).

(** ** pandas: [Series.rolling(window=w)]

    The window of row [i] is the trailing, inclusive slice [i-w+1 .. i],
    cut at the start of the series.  [min_periods] defaults to the window
    size: an aggregate is produced only when the window holds at least
    [w] observations, otherwise the cell is missing. *)

Definition window (w : nat) (s : Series) (i : nat) : list cell :=
  skipn (S i - w) (firstn (S i) s).

Definition rolling (w : nat) (agg : list R -> cell) (s : Series) : Series :=
  map (fun i =>
         let obs := valid (window w s i) in
         if w <=? length obs then agg obs else None)
      (seq 0 (length s)).

(** [.rolling(w).mean()] *)
Definition rolling_mean (w : nat) (s : Series) : Series :=
  rolling w (fun obs => Some (mean obs)) s.

(** The two-pass formula of the rolling sample standard deviation
    ([ddof = 1]): missing unless the window holds [w] observations and
    more than [ddof] of them. *)
Definition rolling_std_two_pass (w : nat) (s : Series) : Series :=
  rolling w (fun obs => if length obs <=? 1 then None else Some (std 1 obs)) s.

(** ** Arithmetic of the kernels

    The operations the library kernels use, with their two readings:
    exact reals and IEEE binary64. *)

Class Arith (T : Type) : Type := {
  a_zero : T;
  a_add : T -> T -> T;
  a_sub : T -> T -> T;
  a_mul : T -> T -> T;
  a_div : T -> T -> T;
  a_sqrt : T -> T;
  a_of_nat : nat -> T;
  a_eqb : T -> T -> bool;
  a_ltb : T -> T -> bool
}.

#[export] Instance Arith_R : Arith R := {
  a_zero := 0%R;
  a_add := Rplus;
  a_sub := Rminus;
  a_mul := Rmult;
  a_div := Rdiv;
  a_sqrt := sqrt;
  a_of_nat := INR;
  a_eqb := fun x y => if Req_dec_T x y then true else false;
  a_ltb := fun x y => if Rlt_dec x y then true else false
}.

#[export] Instance Arith_f64 : Arith PrimFloat.float := {
  a_zero := PrimFloat.zero;
  a_add := PrimFloat.add;
  a_sub := PrimFloat.sub;
  a_mul := PrimFloat.mul;
  a_div := PrimFloat.div;
  a_sqrt := PrimFloat.sqrt;
  a_of_nat := fun n => PrimFloat.of_uint63 (Uint63.of_Z (Z.of_nat n));
  a_eqb := PrimFloat.eqb;
  a_ltb := PrimFloat.ltb
}.

(** ** pandas: [.rolling(w).std()], the online variance kernel

    [roll_var] keeps a running mean and a running sum of squared
    deviations (Welford's update with a Kahan compensation term), adding
    the cell that enters the window and removing the one that leaves it;
    missing cells are skipped on both sides.  [std] is the square root of
    that variance, negative variances being set to zero first. *)

Section RollVar.

Context {T : Type} {arith : Arith T}.

Record var_state : Type := mkVar {
  nobs : nat;
  mean_x : T;
  ssqdm_x : T;
  compensation_add : T;
  compensation_remove : T;
  num_consecutive_same_value : nat;
  prev_value : option T
}.

Definition var_init (first : option T) : var_state :=
  mkVar 0 a_zero a_zero a_zero a_zero 0 first.

Definition add_var (val : option T) (st : var_state) : var_state :=
  match val with
  | None => st
  | Some v =>
      let nobs' := S (nobs st) in
      let same :=
        if match prev_value st with Some p => a_eqb v p | None => false end
        then S (num_consecutive_same_value st) else 1 in
      let prev_mean := a_sub (mean_x st) (compensation_add st) in
      let y := a_sub v (compensation_add st) in
      let t := a_sub y (mean_x st) in
      let compensation := a_sub (a_add t (mean_x st)) y in
      let delta := t in
      let mean' :=
        if nobs' =? 0 then a_zero
        else a_add (mean_x st) (a_div delta (a_of_nat nobs')) in
      let ssqdm' :=
        a_add (ssqdm_x st) (a_mul (a_sub v prev_mean) (a_sub v mean')) in
      mkVar nobs' mean' ssqdm' compensation (compensation_remove st)
            same (Some v)
  end.

Definition remove_var (val : option T) (st : var_state) : var_state :=
  match val with
  | None => st
  | Some v =>
      let nobs' := nobs st - 1 in
      if nobs' =? 0 then
        mkVar nobs' a_zero a_zero (compensation_add st) (compensation_remove st)
              (num_consecutive_same_value st) (prev_value st)
      else
        let prev_mean := a_sub (mean_x st) (compensation_remove st) in
        let y := a_sub v (compensation_remove st) in
        let t := a_sub y (mean_x st) in
        let compensation := a_sub (a_add t (mean_x st)) y in
        let delta := t in
        let mean' := a_sub (mean_x st) (a_div delta (a_of_nat nobs')) in
        let ssqdm' :=
          a_sub (ssqdm_x st) (a_mul (a_sub v prev_mean) (a_sub v mean')) in
        mkVar nobs' mean' ssqdm' (compensation_add st) compensation
              (num_consecutive_same_value st) (prev_value st)
  end.

Definition calc_var (minp ddof : nat) (st : var_state) : option T :=
  if (minp <=? nobs st) && (ddof <? nobs st) then
    if (nobs st =? 1) || (nobs st <=? num_consecutive_same_value st)
    then Some a_zero
    else Some (a_div (ssqdm_x st)
                     (a_sub (a_of_nat (nobs st)) (a_of_nat ddof)))
  else None.

Definition add_range (values : list (option T)) (js : list nat)
           (st : var_state) : var_state :=
  fold_left (fun st j => add_var (nth j values None) st) js st.

Definition remove_range (values : list (option T)) (js : list nat)
           (st : var_state) : var_state :=
  fold_left (fun st j => remove_var (nth j values None) st) js st.

(** Bounds of the fixed window: [start[i] = max(0, i + 1 - w)],
    [end[i] = i + 1]. *)
Definition window_start (w i : nat) : nat := S i - w.
Definition window_end (i : nat) : nat := S i.

(** The state after row [i]: a fresh accumulation over the first window
    (or when the window does not overlap the previous one), otherwise the
    previous state with the leaving cells removed and the entering ones
    added. *)
Definition roll_var_step (w : nat) (values : list (option T)) (i : nat)
           (st : var_state) : var_state :=
  let s := window_start w i in
  let e := window_end i in
  if (i =? 0) || (window_end (i - 1) <=? s) then
    add_range values (seq s (e - s)) (var_init (nth s values None))
  else
    add_range values (seq (window_end (i - 1)) (e - window_end (i - 1)))
      (remove_range values
         (seq (window_start w (i - 1)) (s - window_start w (i - 1))) st).

Fixpoint roll_var_loop (w minp ddof : nat) (values : list (option T))
         (rows : list nat) (st : var_state) : list (option T) :=
  match rows with
  | [] => []
  | i :: rest =>
      let st' := roll_var_step w values i st in
      calc_var minp ddof st' :: roll_var_loop w minp ddof values rest st'
  end.

Definition roll_var (w minp ddof : nat) (values : list (option T))
  : list (option T) :=
  roll_var_loop w (Nat.max minp 1) ddof values (seq 0 (length values))
                (var_init None).

Definition zsqrt (x : T) : T :=
  if a_ltb x a_zero then a_zero else a_sqrt x.

Definition roll_std (w : nat) (values : list (option T)) : list (option T) :=
  map (option_map zsqrt) (roll_var w w 1 values).

End RollVar.

(** [.rolling(w).std()] on a column, in exact arithmetic. *)
Definition rolling_std (w : nat) (s : Series) : Series := roll_std w s.

(** ** pandas: [Series.ewm(com=c).mean()]

    Defaults [adjust=True], [ignore_na=False], [min_periods=0].  The
    kernel keeps the running weighted mean [weighted] and the total
    weight [old_wt] of the observations seen so far. *)

Fixpoint ewm_loop (alpha : R) (weighted : cell) (old_wt : R)
         (vals : list cell) : Series :=
  match vals with
  | [] => []
  | cur :: rest =>
      match weighted with
      | Some w =>
          let old_wt := (old_wt * (1 - alpha))%R in
          match cur with
          | Some c =>
              let w' := if Req_dec_T w c then w
                        else ((old_wt * w + 1 * c) / (old_wt + 1))%R in
              Some w' :: ewm_loop alpha (Some w') (old_wt + 1)%R rest
          | None => Some w :: ewm_loop alpha (Some w) old_wt rest
          end
      | None => cur :: ewm_loop alpha cur old_wt rest
      end
  end.

Definition ewm_mean (com : R) (s : Series) : Series :=
  match s with
  | [] => []
  | v0 :: rest => v0 :: ewm_loop (1 / (1 + com))%R v0 1%R rest
  end.

(** ** pandas: [Series.pct_change()]

    [data / data.shift(1) - 1].  The quotient of two floats is kept apart
    from the cells: a zero denominator gives an infinity (or NaN for
    [0/0]), not an exception.  The default [fill_method] depends on the
    pandas release (forward fill up to 2.x, none afterwards), so it is a
    parameter of the model. *)

Inductive fval : Type :=
| FNaN : fval
| FInf : fval
| FNum : R -> fval.

Inductive fill_method : Type := FillPad | FillNone.

Fixpoint ffill_from (last : cell) (s : Series) : Series :=
  match s with
  | [] => []
  | Some x :: t => Some x :: ffill_from (Some x) t
  | None :: t => last :: ffill_from last t
  end.

Definition ffill (s : Series) : Series := ffill_from None s.

Definition shift1 (s : Series) : Series :=
  match s with
  | [] => []
  | _ :: _ => None :: removelast s
  end.

(** [cur / prev - 1] on floats. *)
Definition pct (cur prev : cell) : fval :=
  match cur, prev with
  | Some c, Some p =>
      if Req_dec_T p 0 then (if Req_dec_T c 0 then FNaN else FInf)
      else FNum (c / p - 1)
  | _, _ => FNaN
  end.

Fixpoint zip_with {A B C : Type} (f : A -> B -> C)
         (l1 : list A) (l2 : list B) : list C :=
  match l1, l2 with
  | a :: t1, b :: t2 => f a b :: zip_with f t1 t2
  | _, _ => []
  end.

Definition pct_change (fill : fill_method) (s : Series) : list fval :=
  let data := match fill with FillPad => ffill s | FillNone => s end in
  zip_with pct data (shift1 data).

(** Rolling aggregations first turn infinities into missing values. *)
Definition prep_value (v : fval) : cell :=
  match v with
  | FNum x => Some x
  | FInf | FNaN => None
  end.

Definition prep_values (vs : list fval) : Series := map prep_value vs.

(** ** The volatility column in binary64

    The same two calls, [pct_change] and [rolling(50).std()], on float64
    cells: NaN is the missing value, the quotient and the difference are
    the IEEE operations, and the variance kernel is [roll_var] at the
    binary64 instance. *)

Module F64.

Import PrimFloat.

Definition float : Set := PrimFloat.float.

Definition is_missing (x : float) : bool := PrimFloat.is_nan x.


Fixpoint ffill_from (last : float) (s : list float) : list float :=
  match s with
  | [] => []
  | x :: t =>
      if is_missing x then last :: ffill_from last t
      else x :: ffill_from x t
  end.

Definition ffill (s : list float) : list float := ffill_from PrimFloat.nan s.

Definition shift1 (s : list float) : list float :=
  match s with
  | [] => []
  | _ :: _ => PrimFloat.nan :: removelast s
  end.

(** [cur / prev - 1] *)
Definition pct (cur prev : float) : float :=
  PrimFloat.sub (PrimFloat.div cur prev) 1%float.

Definition pct_change (fill : fill_method) (s : list float) : list float :=
  let data := match fill with FillPad => ffill s | FillNone => s end in
  zip_with pct data (shift1 data).

(** Infinities become missing before a rolling aggregation; the kernel
    skips the missing cells. *)
Definition prep_values (vs : list float) : list (option float) :=
  map (fun v => if PrimFloat.is_nan v || PrimFloat.is_infinity v
                then None else Some v) vs.

Definition unbox (c : option float) : float :=
  match c with
  | Some v => v
  | None => PrimFloat.nan
  end.

Definition rolling_std (w : nat) (s : list float) : list float :=
  map unbox (roll_std w (prep_values s)).




(** The float of an integer (exact below [2^53]). *)
Definition of_Z (z : Z) : float := PrimFloat.of_uint63 (Uint63.of_Z z).

Definition two : float := 2%float.



End F64.

(** ** Tables *)

Definition Timestamp := Z.

Record DataFrame : Type := mkFrame {
  index : list Timestamp;
  columns : list (string * Series)
}.

Definition nrows (df : DataFrame) : nat := length (index df).

(** Every column has one cell per row of the index. *)
Definition well_formed (df : DataFrame) : Prop :=
  Forall (fun c => length (snd c) = nrows df) (columns df).

(** [df.empty]: some axis has length zero. *)
Definition empty (df : DataFrame) : bool :=
  (nrows df =? 0) || (length (columns df) =? 0).

Definition has_col (name : string) (df : DataFrame) : bool :=
  existsb (fun c => String.eqb name (fst c)) (columns df).

Definition get_col (name : string) (df : DataFrame) : option Series :=
  option_map snd (find (fun c => String.eqb name (fst c)) (columns df)).

(** [df[name] = s]: an existing column is overwritten where it stands, a
    new one is appended after the others. *)
Definition setitem (df : DataFrame) (name : string) (s : Series) : DataFrame :=
  mkFrame (index df)
    (if has_col name df
     then map (fun c => if String.eqb name (fst c) then (fst c, s) else c)
              (columns df)
     else columns df ++ [(name, s)]).

(** Positional row selection, the common core of [dropna] and [tail]. *)
Definition take_rows (rows : list nat) (df : DataFrame) : DataFrame :=
  mkFrame (map (fun i => nth i (index df) 0%Z) rows)
          (map (fun c => (fst c, map (fun i => nth i (snd c) None) rows))
               (columns df)).

(** A row is complete when no column is missing there. *)
Definition row_complete (df : DataFrame) (i : nat) : bool :=
  forallb (fun c => notna (nth i (snd c) None)) (columns df).

Definition kept_rows (df : DataFrame) : list nat :=
  filter (row_complete df) (seq 0 (nrows df)).

(** [df.dropna()] with the defaults [axis=0], [how='any']. *)
Definition dropna (df : DataFrame) : DataFrame := take_rows (kept_rows df) df.

Definition tail_rows (k : nat) (df : DataFrame) : list nat :=
  seq (nrows df - k) (Nat.min k (nrows df)).

(** [df.tail(k)] *)
Definition tail (k : nat) (df : DataFrame) : DataFrame :=
  take_rows (tail_rows k df) df.

(** ** Output and exceptions *)

Inductive exn : Type :=
| KeyError (key : string)
| DownloadError (msg : string).

Inductive event : Type :=
| Print (line : string)
| PrintFrame (df : DataFrame).

Inductive outcome (A : Type) : Type :=
| Ok (a : A)
| Raise (e : exn).
Arguments Raise {A} e.

Definition M (A : Type) : Type := (list event * outcome A)%type.

Definition ret {A : Type} (a : A) : M A := ([], Ok a).

Definition bind {A B : Type} (m : M A) (f : A -> M B) : M B :=
  match m with
  | (out, Ok a) => let (out', r) := f a in (out ++ out', r)
  | (out, Raise e) => (out, Raise e)
  end.

Notation "x <- m ;; k" := (bind m (fun x => k))
  (at level 61, m at next level, right associativity).
Notation "m ;; k" := (bind m (fun _ => k))
  (at level 61, right associativity).

Definition print (line : string) : M unit := ([Print line], Ok tt).
Definition print_frame (df : DataFrame) : M unit := ([PrintFrame df], Ok tt).

Definition lift {A : Type} (r : outcome A) : M A := ([], r).

(** [df[name]] raises [KeyError] on an unknown column. *)
Definition getitem (df : DataFrame) (name : string) : M Series :=
  match get_col name df with
  | Some s => ret s
  | None => lift (Raise (KeyError name))
  end.

Definition nl : string := String (ascii_of_nat 10) EmptyString.

(** ** The program *)

Section Program.

(** Release-dependent default of [pct_change]. *)
Variable pct_fill : fill_method.
(** The provider call [yf.download(ticker, start=, end=)]. *)
Variable yf_download : string -> string -> string -> outcome DataFrame.
(** The float format [:.2f]. *)
Variable format_2f : R -> string.

Definition fetch_data (ticker_symbol start_date end_date : string)
  : M DataFrame :=
  print ("Fetching data for " ++ ticker_symbol ++ " from " ++ start_date
         ++ " to " ++ end_date ++ "...") ;;
  data <- lift (yf_download ticker_symbol start_date end_date) ;;
  print "Data fetched successfully!" ;;
  ret data.

Definition calculate_indicators (data : DataFrame) : M DataFrame :=
  print "Calculating financial indicators..." ;;
  close <- getitem data "Close" ;;
  let data := setitem data "SMA_50" (rolling_mean 50 close) in
  close <- getitem data "Close" ;;
  let data := setitem data "EMA_21" (ewm_mean 21 close) in
  close <- getitem data "Close" ;;
  let daily_returns := pct_change pct_fill close in
  let data := setitem data "Volatility_50"
                (rolling_std 50 (prep_values daily_returns)) in
  print "Indicators calculated." ;;
  ret data.

Definition analyze_performance (data : DataFrame) : M unit :=
  print (nl ++ "--- Analysis Complete ---") ;;
  let final_data := dropna data in
  print "Displaying the last 5 days of data with indicators:" ;;
  print_frame (tail 5 final_data).

Definition ticker : string := "NVDA".
Definition start : string := "2020-01-01".
Definition end_ : string := "2025-01-01".

Definition no_data_message : string :=
  "Could not download data for " ++ ticker
  ++ ". Please check the symbol and date range.".

(** The main block; [start_time] and [end_time] are the two readings of
    [time.time()]. *)
Definition main (start_time end_time : R) : M unit :=
  stock_data <- fetch_data ticker start end_ ;;
  (if negb (empty stock_data) then
     stock_data_with_indicators <- calculate_indicators stock_data ;;
     analyze_performance stock_data_with_indicators
   else
     print no_data_message) ;;
  let duration := (end_time - start_time)%R in
  print (nl ++ "Total execution time: " ++ format_2f duration ++ " seconds.").

End Program.

(** ** Reading results, and the reference formulas of the indicators *)

Definition output_of {A : Type} (m : M A) : list event := fst m.

Definition result_of {A : Type} (m : M A) : option A :=
  match snd m with
  | Ok a => Some a
  | Raise _ => None
  end.

(** The column [name] of the table returned by [calculate_indicators]. *)
Definition indicator_column (fill : fill_method) (data : DataFrame)
           (name : string) : option Series :=
  match result_of (calculate_indicators fill data) with
  | Some d => get_col name d
  | None => None
  end.

Definition indicator_names : list string :=
  ["SMA_50"; "EMA_21"; "Volatility_50"]%string.

(** The three columns computed from a closing-price column. *)
Definition indicator_columns (fill : fill_method) (close : Series)
  : list (string * Series) :=
  [("SMA_50"%string, rolling_mean 50 close);
   ("EMA_21"%string, ewm_mean 21 close);
   ("Volatility_50"%string,
    rolling_std 50 (prep_values (pct_change fill close)))].

(** The table after the three column assignments of
    [calculate_indicators]. *)
Definition enrich (fill : fill_method) (data : DataFrame) (close : Series)
  : DataFrame :=
  fold_left (fun d c => setitem d (fst c) (snd c))
            (indicator_columns fill close) data.

(** The return column as the rolling aggregation reads it. *)
Definition returns_of (fill : fill_method) (close : Series) : Series :=
  prep_values (pct_change fill close).


(** [mean(C[i-49 .. i])] *)
Definition sma_ref (C : list R) (i : nat) : R :=
  (Rsum (map (fun j => nth j C 0) (seq (i - 49) 50)) / 50)%R.

(** Finite-sample weighted average with weights [(1-alpha)^(i-j)]:
    weighted sum of [C[0..i]] over the sum of the weights. *)
Definition ema_num (alpha : R) (C : list R) (i : nat) : R :=
  Rsum (map (fun j => (1 - alpha) ^ (i - j) * nth j C 0)%R (seq 0 (S i))).

Definition ema_den (alpha : R) (i : nat) : R :=
  Rsum (map (fun j => (1 - alpha) ^ (i - j))%R (seq 0 (S i))).

Definition ema_ref (alpha : R) (C : list R) (i : nat) : R :=
  (ema_num alpha C i / ema_den alpha i)%R.

(** The infinite-horizon recursion [alpha * C[i] + (1 - alpha) * prev]. *)
Definition ema_recursive_step (alpha prev c : R) : R :=
  (alpha * c + (1 - alpha) * prev)%R.

(** [r[j] = C[j] / C[j-1] - 1] *)
Definition single_return (C : list R) (j : nat) : R :=
  (nth j C 0 / nth (j - 1) C 0 - 1)%R.

(** Sample standard deviation (divisor 49) of the 50 returns
    [r[i-49] .. r[i]]. *)
Definition vol_ref (C : list R) (i : nat) : R :=
  let rs := map (single_return C) (seq (i - 49) 50) in
  let m := (Rsum rs / 50)%R in
  sqrt (Rsum (map (fun r => (r - m) * (r - m)) rs) / 49)%R.

(** Substring test, for the content of printed lines. *)
Fixpoint contains (sub s : string) : bool :=
  String.prefix sub s
  || match s with
     | EmptyString => false
     | String _ t => contains sub t
     end.

(** A message identifies the request when it spells out the instrument
    and both ends of the date range. *)
Definition identifies_request (line : string) : bool :=
  contains ticker line && contains start line && contains end_ line.

(** Lines printed on entry to the two processing stages. *)
Definition stage_banners : list event :=
  [Print "Calculating financial indicators...";
   Print (nl ++ "--- Analysis Complete ---")].

Definition analysis_output (shown : DataFrame) : list event :=
  [Print (nl ++ "--- Analysis Complete ---");
   Print "Displaying the last 5 days of data with indicators:";
   PrintFrame shown].

(** ** Sample tables *)

Definition dates (n : nat) : list Timestamp := map Z.of_nat (seq 0 n).

(** [n] rows of the constant closing price 100. *)
Definition flat_prices (n : nat) : list R := repeat 100%R n.

Definition flat_table (n : nat) : DataFrame :=
  mkFrame (dates n) [("Close"%string, map Some (flat_prices n))].

(** Three rows with rising prices. *)
Definition rising_prices : list R := [1; 2; 4]%R.

Definition rising_table : DataFrame :=
  mkFrame (dates 3) [("Close"%string, map Some rising_prices)].

(** 51 rows, every closing price present, [Open] missing on the last. *)
Definition open_gap_table : DataFrame :=
  mkFrame (dates 51)
    [("Open"%string, map Some (flat_prices 50) ++ [None]);
     ("Close"%string, map Some (flat_prices 51))].

(** A table that already carries a column named [SMA_50]. *)
Definition stale_sma_table : DataFrame :=
  mkFrame (dates 1)
    [("Close"%string, [Some 1%R]); ("SMA_50"%string, [Some 7%R])].

(** A provider that finds no observation. *)
Definition no_observations (_ _ _ : string) : outcome DataFrame :=
  Ok (mkFrame [] []).

Definition two_decimals (_ : R) : string := "0.00".






(** ** Output lines of the main block *)

Definition fetch_banner : string :=
  "Fetching data for NVDA from 2020-01-01 to 2025-01-01...".

(** The line that reports the elapsed time. *)
Definition time_line (format_2f : R -> string) (start_time end_time : R)
  : string :=
  nl ++ "Total execution time: " ++ format_2f (end_time - start_time)%R
     ++ " seconds.".

(** A table with rows but no [Close] column. *)
Definition no_close_table : DataFrame :=
  mkFrame (dates 2) [("Open"%string, [Some 1%R; Some 2%R])].

(** A provider call that raises. *)
Definition failing_download (_ _ _ : string) : outcome DataFrame :=
  Raise (DownloadError "connection refused").

Definition flat_download (n : nat) (_ _ _ : string) : outcome DataFrame :=
  Ok (flat_table n).

Definition no_close_download (_ _ _ : string) : outcome DataFrame :=
  Ok no_close_table.

(** 60 rows of price 100, the price of row 5 missing. *)
Definition gap_close : Series :=
  map Some (flat_prices 5) ++ None :: map Some (flat_prices 54).

Definition gap_close_table : DataFrame :=
  mkFrame (dates 60) [("Close"%string, gap_close)].

(** 60 rows of price 100, the price of row 5 being zero. *)
Definition zero_prices : list R := flat_prices 5 ++ 0%R :: flat_prices 54.

Definition zero_price_table : DataFrame :=
  mkFrame (dates 60) [("Close"%string, map Some zero_prices)].

(** ** Vocabulary of the variance kernel's invariant *)

(** The last [k] elements of a list. *)
Definition lastn {A : Type} (k : nat) (l : list A) : list A :=
  skipn (length l - k) l.

Definition Rsumsq (xs : list R) : R := Rsum (map (fun x => (x * x)%R) xs).

(** The state carries the mean and the squared deviations of the
    observations [W] of the current window, with no compensation pending
    (in exact arithmetic the Kahan terms vanish). *)
Definition holds_window (W : list R) (st : @var_state R) : Prop :=
  nobs st = length W
  /\ mean_x st = mean W
  /\ ssqdm_x st = ssqdm W
  /\ compensation_add st = 0%R
  /\ compensation_remove st = 0%R.

(** The counter of repeated values counts a run of equal observations at
    the end of the observations [V] added so far. *)
Definition same_run (V : list R) (st : @var_state R) : Prop :=
  num_consecutive_same_value st <= length V
  /\ match prev_value st with
     | Some p => Forall (eq p) (lastn (num_consecutive_same_value st) V)
     | None => num_consecutive_same_value st = 0
     end.

(** * Properties *)

(** ** Lists, windows and observations *)

Lemma valid_map_Some (l : list R) : valid (map Some l) = l.
Proof. induction l as [|x l IH]; simpl; [reflexivity | now rewrite IH]. Qed.

Lemma valid_length_le (w : list cell) : length (valid w) <= length w.
Proof.
  induction w as [|[x|] w IH]; simpl; lia.
Qed.

Lemma valid_None_head (w : list cell) :
  length (valid (None :: w)) <= length w.
Proof. simpl. apply valid_length_le. Qed.

(** A slice [a .. b-1] of a list, read through positions. *)
Lemma slice_seq (A : Type) (d : A) (l : list A) (a b : nat) :
  a <= b -> b <= length l ->
  skipn a (firstn b l) = map (fun j => nth j l d) (seq a (b - a)).
Proof.
  intros Hab Hb.
  apply nth_ext with (d := d) (d' := d).
  - rewrite length_skipn, length_firstn, length_map, length_seq. lia.
  - intros k Hk.
    rewrite length_skipn, length_firstn in Hk.
    rewrite nth_skipn.
    rewrite nth_firstn.
    destruct (Nat.ltb_spec (a + k) b) as [_|Hge]; [|lia].
    rewrite (nth_indep (map (fun j => nth j l d) (seq a (b - a))) d (nth 0 l d))
      by (rewrite length_map, length_seq; lia).
    rewrite (map_nth (fun j => nth j l d) (seq a (b - a)) 0 k).
    rewrite seq_nth by lia. reflexivity.
Qed.

Lemma window_map_Some (w : nat) (C : list R) (i : nat) :
  window w (map Some C) i = map Some (skipn (S i - w) (firstn (S i) C)).
Proof.
  unfold window. now rewrite firstn_map, skipn_map.
Qed.

(** The full trailing window of [w] positions ending at [i]. *)
Lemma window_full (w : nat) (s : Series) (i : nat) :
  0 < w -> w <= S i -> i < length s ->
  window w s i = map (fun j => nth j s None) (seq (S i - w) w).
Proof.
  intros Hw Hwi Hi. unfold window.
  rewrite (@slice_seq cell None s (S i - w) (S i)) by lia.
  replace (S i - (S i - w)) with w by lia. reflexivity.
Qed.

(** Before the window fills, it is the whole prefix. *)
Lemma window_prefix (w : nat) (s : Series) (i : nat) :
  S i <= w -> window w s i = firstn (S i) s.
Proof.
  intros H. unfold window. replace (S i - w) with 0 by lia. reflexivity.
Qed.

Lemma rolling_length (w : nat) (agg : list R -> cell) (s : Series) :
  length (rolling w agg s) = length s.
Proof. unfold rolling. now rewrite length_map, length_seq. Qed.

Lemma rolling_nth_error (w : nat) (agg : list R -> cell) (s : Series) (i : nat) :
  i < length s ->
  nth_error (rolling w agg s) i
  = Some (if w <=? length (valid (window w s i))
          then agg (valid (window w s i)) else None).
Proof.
  intros Hi. unfold rolling.
  rewrite nth_error_map, nth_error_seq.
  destruct (Nat.ltb_spec i (length s)) as [_|]; [reflexivity | lia].
Qed.

(** A row whose window cannot hold [w] observations is missing. *)
Lemma rolling_short (w : nat) (agg : list R -> cell) (s : Series) (i : nat) :
  i < length s -> length (valid (window w s i)) < w ->
  nth_error (rolling w agg s) i = Some None.
Proof.
  intros Hi Hlt. rewrite rolling_nth_error by assumption.
  destruct (Nat.leb_spec w (length (valid (window w s i)))); [lia | reflexivity].
Qed.

Lemma rolling_warmup (w : nat) (agg : list R -> cell) (s : Series) (i : nat) :
  i < length s -> S i < w -> nth_error (rolling w agg s) i = Some None.
Proof.
  intros Hi Hw. apply rolling_short; [assumption|].
  rewrite window_prefix by lia.
  pose proof (valid_length_le (firstn (S i) s)) as H.
  rewrite length_firstn in H. lia.
Qed.

(** A full window of observations is aggregated. *)
Lemma rolling_full (w : nat) (agg : list R -> cell) (s : Series) (i : nat)
      (xs : list R) :
  i < length s -> window w s i = map Some xs -> length xs = w ->
  nth_error (rolling w agg s) i = Some (agg xs).
Proof.
  intros Hi Hwin Hlen. rewrite rolling_nth_error by assumption.
  rewrite Hwin, valid_map_Some, Hlen, Nat.leb_refl. reflexivity.
Qed.


(** ** Column lookup and assignment *)

Lemma has_col_get_col (name : string) (df : DataFrame) :
  has_col name df = false <-> get_col name df = None.
Proof.
  unfold has_col, get_col. induction (columns df) as [|c cs IH]; simpl.
  - tauto.
  - destruct (String.eqb name (fst c)); simpl; [split; discriminate | exact IH].
Qed.

Lemma index_setitem (df : DataFrame) (name : string) (s : Series) :
  index (setitem df name s) = index df.
Proof. reflexivity. Qed.

Lemma nrows_setitem (df : DataFrame) (name : string) (s : Series) :
  nrows (setitem df name s) = nrows df.
Proof. reflexivity. Qed.

Lemma setitem_fresh (df : DataFrame) (name : string) (s : Series) :
  has_col name df = false ->
  columns (setitem df name s) = columns df ++ [(name, s)].
Proof. intros H. unfold setitem. simpl. now rewrite H. Qed.

Lemma get_col_setitem_same (df : DataFrame) (name : string) (s : Series) :
  get_col name (setitem df name s) = Some s.
Proof.
  unfold setitem, get_col. simpl.
  destruct (has_col name df) eqn:Hhas; unfold has_col in Hhas.
  - induction (columns df) as [|c cs IH]; simpl in *; [discriminate|].
    destruct (String.eqb name (fst c)) eqn:E; simpl.
    + rewrite E. reflexivity.
    + rewrite E. apply IH. exact Hhas.
  - induction (columns df) as [|c cs IH]; simpl in *.
    + now rewrite String.eqb_refl.
    + destruct (String.eqb name (fst c)) eqn:E; simpl in *; [discriminate|].
      apply IH. exact Hhas.
Qed.

Lemma get_col_setitem_other (df : DataFrame) (name name' : string) (s : Series) :
  name' <> name ->
  get_col name' (setitem df name s) = get_col name' df.
Proof.
  intros Hne. unfold setitem, get_col. simpl.
  destruct (has_col name df).
  - induction (columns df) as [|c cs IH]; simpl; [reflexivity|].
    destruct (String.eqb_spec name (fst c)) as [E|E]; simpl.
    + destruct (String.eqb_spec name' (fst c)) as [E'|E']; [congruence|].
      exact IH.
    + destruct (String.eqb name' (fst c)); [reflexivity | exact IH].
  - induction (columns df) as [|c cs IH]; simpl.
    + destruct (String.eqb_spec name' name); [congruence | reflexivity].
    + destruct (String.eqb name' (fst c)); [reflexivity | exact IH].
Qed.

Lemma has_col_setitem_other (df : DataFrame) (name name' : string) (s : Series) :
  name' <> name -> has_col name' (setitem df name s) = has_col name' df.
Proof.
  intros Hne.
  destruct (has_col name' df) eqn:H.
  - destruct (has_col name' (setitem df name s)) eqn:H'; [reflexivity|].
    apply has_col_get_col in H'.
    rewrite get_col_setitem_other in H' by assumption.
    apply has_col_get_col in H'. congruence.
  - apply has_col_get_col. rewrite get_col_setitem_other by assumption.
    now apply has_col_get_col.
Qed.

(** The columns after an assignment: the assigned one, and the others. *)
Lemma In_setitem (df : DataFrame) (name : string) (s : Series)
      (c : string * Series) :
  In c (columns (setitem df name s))
  <-> c = (name, s) \/ (In c (columns df) /\ fst c <> name).
Proof.
  unfold setitem. simpl.
  destruct (has_col name df) eqn:Hhas; unfold has_col in Hhas.
  - rewrite in_map_iff. split.
    + intros [c0 [Hc0 Hin]].
      destruct (String.eqb_spec name (fst c0)) as [E|E].
      * left. rewrite <- Hc0, <- E. reflexivity.
      * right. subst c. split; [assumption | congruence].
    + intros [->|[Hin Hne]].
      * apply existsb_exists in Hhas. destruct Hhas as [c0 [Hin E]].
        exists c0. rewrite E. apply String.eqb_eq in E.
        rewrite <- E. split; [reflexivity | assumption].
      * exists c. split; [|assumption].
        destruct (String.eqb_spec name (fst c)); [congruence | reflexivity].
  - rewrite in_app_iff. simpl. split.
    + intros [Hin|[<-|[]]]; [right | left; reflexivity].
      split; [assumption|]. intros E.
      assert (existsb (fun c0 => String.eqb name (fst c0)) (columns df) = true)
        as Habs; [|congruence].
      apply existsb_exists. exists c. split; [assumption|].
      rewrite E. apply String.eqb_refl.
    + intros [->|[Hin _]]; [right; left; reflexivity | left; assumption].
Qed.

Lemma In_enrich (fill : fill_method) (data : DataFrame) (close : Series)
      (c : string * Series) :
  In c (columns (enrich fill data close))
  <-> In c (indicator_columns fill close)
      \/ (In c (columns data) /\ ~ In (fst c) indicator_names).
Proof.
  unfold enrich, indicator_columns, indicator_names.
  cbn [fold_left fst snd]. rewrite !In_setitem. cbn [In fst snd].
  split.
  - intros [->|[[->|[[->|[Hin H1]] H2]] H3]]; auto.
    right. split; [assumption|]. intros [E|[E|[E|[]]]]; congruence.
  - intros [[<-|[<-|[<-|[]]]]|[Hin Hn]].
    + right. split; [|discriminate]. right. split; [|discriminate]. now left.
    + right. split; [|discriminate]. now left.
    + now left.
    + right. split; [|intros E; apply Hn; auto].
      right. split; [|intros E; apply Hn; auto].
      right. split; [assumption | intros E; apply Hn; auto].
Qed.

(** ** [calculate_indicators] succeeds exactly on tables with a [Close]
    column *)

Lemma calculate_indicators_ok (fill : fill_method) (data : DataFrame)
      (close : Series) :
  get_col "Close" data = Some close ->
  calculate_indicators fill data
  = ([Print "Calculating financial indicators...";
      Print "Indicators calculated."],
     Ok (enrich fill data close)).
Proof.
  intros Hc. unfold calculate_indicators, getitem.
  rewrite Hc. simpl.
  rewrite get_col_setitem_other by discriminate. rewrite Hc. simpl.
  rewrite !get_col_setitem_other by discriminate. rewrite Hc. simpl.
  reflexivity.
Qed.

Lemma calculate_indicators_no_close (fill : fill_method) (data : DataFrame) :
  get_col "Close" data = None ->
  calculate_indicators fill data
  = ([Print "Calculating financial indicators..."], Raise (KeyError "Close")).
Proof.
  intros Hc. unfold calculate_indicators, getitem. rewrite Hc. reflexivity.
Qed.

Lemma get_col_enrich_SMA (fill : fill_method) (data : DataFrame) (close : Series) :
  get_col "SMA_50" (enrich fill data close) = Some (rolling_mean 50 close).
Proof.
  unfold enrich, indicator_columns. cbn [fold_left fst snd].
  rewrite !get_col_setitem_other by discriminate.
  apply get_col_setitem_same.
Qed.

Lemma get_col_enrich_EMA (fill : fill_method) (data : DataFrame) (close : Series) :
  get_col "EMA_21" (enrich fill data close) = Some (ewm_mean 21 close).
Proof.
  unfold enrich, indicator_columns. cbn [fold_left fst snd].
  rewrite get_col_setitem_other by discriminate.
  apply get_col_setitem_same.
Qed.

Lemma get_col_enrich_Vol (fill : fill_method) (data : DataFrame) (close : Series) :
  get_col "Volatility_50" (enrich fill data close)
  = Some (rolling_std 50 (prep_values (pct_change fill close))).
Proof.
  unfold enrich, indicator_columns. cbn [fold_left fst snd].
  apply get_col_setitem_same.
Qed.

Lemma indicator_column_enrich (fill : fill_method) (data : DataFrame)
      (close : Series) (name : string) :
  get_col "Close" data = Some close ->
  indicator_column fill data name = get_col name (enrich fill data close).
Proof.
  intros Hc. unfold indicator_column, result_of.
  now rewrite (calculate_indicators_ok fill data Hc).
Qed.

(** ** Simple moving average *)

Lemma INR_50 : INR 50 = 50%R.
Proof. rewrite INR_IZR_INZ. reflexivity. Qed.

Lemma trailing_50 (C : list R) (i : nat) :
  49 <= i -> i < length C ->
  window 50 (map Some C) i
  = map Some (map (fun j => nth j C 0%R) (seq (i - 49) 50)).
Proof.
  intros Hlo Hi. rewrite window_map_Some. f_equal.
  rewrite (@slice_seq R 0%R C (S i - 50) (S i)) by lia.
  replace (S i - (S i - 50)) with 50 by lia.
  replace (S i - 50) with (i - 49) by lia. reflexivity.
Qed.

Lemma sma_warmup (s : Series) (i : nat) :
  i < length s -> i < 49 -> nth_error (rolling_mean 50 s) i = Some None.
Proof. intros Hi Hlt. apply rolling_warmup; lia. Qed.

Lemma sma_value (C : list R) (i : nat) :
  49 <= i -> i < length C ->
  nth_error (rolling_mean 50 (map Some C)) i = Some (Some (sma_ref C i)).
Proof.
  intros Hlo Hi. unfold rolling_mean.
  rewrite (@rolling_full 50 _ (map Some C) i
             (map (fun j => nth j C 0%R) (seq (i - 49) 50))).
  - unfold mean, sma_ref. rewrite length_map, length_seq, INR_50. reflexivity.
  - now rewrite length_map.
  - now apply trailing_50.
  - now rewrite length_map, length_seq.
Qed.

Lemma sma_nth_error (C : list R) (i : nat) :
  i < length C ->
  nth_error (rolling_mean 50 (map Some C)) i
  = Some (if i <? 49 then None else Some (sma_ref C i)).
Proof.
  intros Hi. destruct (Nat.ltb_spec i 49).
  - apply sma_warmup; [now rewrite length_map | assumption].
  - now apply sma_value.
Qed.

Lemma agree_firstn (A : Type) (s1 s2 : list A) (k : nat) :
  (forall j, j < k -> nth_error s1 j = nth_error s2 j) ->
  firstn k s1 = firstn k s2.
Proof.
  revert s1 s2. induction k as [|k IH]; intros s1 s2 H; [reflexivity|].
  pose proof (H 0 ltac:(lia)) as H0.
  destruct s1 as [|a s1], s2 as [|b s2]; simpl in H0; try discriminate;
    [reflexivity|].
  injection H0 as ->. simpl. f_equal.
  apply IH. intros j Hj. apply (H (S j)). lia.
Qed.

(** A rolling aggregate at row [i] is a function of the rows up to [i]. *)
Lemma rolling_causal (w : nat) (agg : list R -> cell) (s1 s2 : Series) (i : nat) :
  (forall j, j <= i -> nth_error s1 j = nth_error s2 j) ->
  nth_error (rolling w agg s1) i = nth_error (rolling w agg s2) i.
Proof.
  intros H.
  assert (firstn (S i) s1 = firstn (S i) s2) as Hpre
      by (apply agree_firstn; intros j Hj; apply H; lia).
  unfold rolling. rewrite !nth_error_map, !nth_error_seq.
  pose proof (H i (Nat.le_refl i)) as Hi.
  destruct (Nat.ltb_spec i (length s1)) as [H1|H1];
    destruct (Nat.ltb_spec i (length s2)) as [H2|H2]; cbn [option_map Nat.add].
  - unfold window. rewrite Hpre. reflexivity.
  - apply nth_error_None in H2. rewrite H2 in Hi.
    apply nth_error_None in Hi. lia.
  - apply nth_error_None in H1. rewrite H1 in Hi.
    symmetry in Hi. apply nth_error_None in Hi. lia.
  - reflexivity.
Qed.

(** ** Exponentially weighted mean *)

Lemma Rsum_app (xs ys : list R) : Rsum (xs ++ ys) = (Rsum xs + Rsum ys)%R.
Proof.
  unfold Rsum. induction xs as [|x xs IH]; simpl; [lra | rewrite IH; lra].
Qed.

Lemma Rsum_map_scale (A : Type) (q : R) (f g : A -> R) (l : list A) :
  (forall a, In a l -> f a = (q * g a)%R) ->
  Rsum (map f l) = (q * Rsum (map g l))%R.
Proof.
  unfold Rsum. induction l as [|a l IH]; intros H; simpl; [lra|].
  rewrite (H a) by now left.
  rewrite IH by (intros b Hb; apply H; now right). lra.
Qed.

Lemma skipn_cons_nth (A : Type) (d : A) (k : nat) (l : list A) (a : A)
      (rest : list A) :
  skipn k l = a :: rest -> nth k l d = a /\ skipn (S k) l = rest.
Proof.
  revert l. induction k as [|k IH]; intros l H.
  - simpl in H. subst l. simpl. auto.
  - destruct l as [|b l]; [discriminate|]. simpl in H.
    destruct (IH l H) as [H1 H2]. split; [exact H1 | exact H2].
Qed.

Section Ewm.

Variable alpha : R.
Hypothesis alpha_le_1 : (0 <= 1 - alpha)%R.

Lemma ema_num_0 (C : list R) : ema_num alpha C 0 = nth 0 C 0%R.
Proof. unfold ema_num, Rsum. simpl. lra. Qed.

Lemma ema_den_0 : ema_den alpha 0 = 1%R.
Proof. unfold ema_den, Rsum. simpl. lra. Qed.

Lemma ema_num_S (C : list R) (i : nat) :
  ema_num alpha C (S i)
  = ((1 - alpha) * ema_num alpha C i + nth (S i) C 0)%R.
Proof.
  unfold ema_num. rewrite (seq_S (S i) 0), map_app, Rsum_app.
  cbn [map Nat.add]. rewrite Nat.sub_diag.
  rewrite (@Rsum_map_scale nat (1 - alpha)%R _
             (fun j => ((1 - alpha) ^ (i - j) * nth j C 0)%R)).
  - unfold Rsum at 2. simpl. lra.
  - intros j Hj. apply in_seq in Hj.
    replace (S i - j) with (S (i - j)) by lia. simpl. lra.
Qed.

Lemma ema_den_S (i : nat) :
  ema_den alpha (S i) = ((1 - alpha) * ema_den alpha i + 1)%R.
Proof.
  unfold ema_den. rewrite (seq_S (S i) 0), map_app, Rsum_app.
  cbn [map Nat.add]. rewrite Nat.sub_diag.
  rewrite (@Rsum_map_scale nat (1 - alpha)%R _
             (fun j => ((1 - alpha) ^ (i - j))%R)).
  - unfold Rsum at 2. simpl. lra.
  - intros j Hj. apply in_seq in Hj.
    replace (S i - j) with (S (i - j)) by lia. simpl. lra.
Qed.

Lemma ema_den_pos (i : nat) : (1 <= ema_den alpha i)%R.
Proof.
  induction i as [|i IH]; [rewrite ema_den_0; lra|].
  rewrite ema_den_S. nra.
Qed.

(** One step of the kernel maps the weighted average of [C[0..i]] to
    that of [C[0..i+1]], whichever branch computes it. *)
Lemma ewm_step (C : list R) (i : nat) (c : R) :
  nth (S i) C 0%R = c ->
  (if Req_dec_T (ema_ref alpha C i) c then ema_ref alpha C i
   else ((ema_den alpha i * (1 - alpha) * ema_ref alpha C i + 1 * c)
         / (ema_den alpha i * (1 - alpha) + 1))%R)
  = ema_ref alpha C (S i).
Proof.
  intros Hc. pose proof (ema_den_pos i) as Hd.
  assert (ema_den alpha (S i) <> 0%R) as Hd'
      by (pose proof (ema_den_pos (S i)); lra).
  unfold ema_ref in *. rewrite ema_num_S, Hc.
  rewrite ema_den_S in *.
  destruct (Req_dec_T (ema_num alpha C i / ema_den alpha i) c) as [E|_].
  - assert (ema_num alpha C i = c * ema_den alpha i)%R as ->
        by (rewrite <- E; field; lra).
    field. split; lra.
  - field. split; lra.
Qed.

Lemma ewm_loop_closed (rest : list R) :
  forall (C : list R) (i : nat),
    skipn (S i) C = rest ->
    ewm_loop alpha (Some (ema_ref alpha C i)) (ema_den alpha i)
             (map Some rest)
    = map (fun k => Some (ema_ref alpha C k)) (seq (S i) (length rest)).
Proof.
  induction rest as [|c rest IH]; intros C i Hskip; [reflexivity|].
  destruct (skipn_cons_nth 0%R _ _ Hskip) as [Hc Hrest].
  cbn [map ewm_loop length seq].
  rewrite (ewm_step C i Hc).
  replace (ema_den alpha i * (1 - alpha) + 1)%R with (ema_den alpha (S i))
    by (rewrite ema_den_S; lra).
  rewrite (IH C (S i) Hrest). reflexivity.
Qed.

Lemma ewm_closed (C : list R) :
  match map Some C with
  | [] => []
  | v0 :: rest => v0 :: ewm_loop alpha v0 1%R rest
  end
  = map (fun k => Some (ema_ref alpha C k)) (seq 0 (length C)).
Proof.
  destruct C as [|c0 rest]; [reflexivity|].
  cbn [map length seq].
  assert (ema_ref alpha (c0 :: rest) 0 = c0) as H0.
  { unfold ema_ref. rewrite ema_num_0, ema_den_0. simpl. field. }
  rewrite <- ema_den_0. rewrite <- H0 at 1 2.
  rewrite (@ewm_loop_closed rest (c0 :: rest) 0 eq_refl).
  rewrite H0. reflexivity.
Qed.

End Ewm.

Lemma ewm_mean_closed (C : list R) :
  ewm_mean 21 (map Some C)
  = map (fun k => Some (ema_ref (1 / 22) C k)) (seq 0 (length C)).
Proof.
  unfold ewm_mean.
  replace (1 / (1 + 21))%R with (1 / 22)%R by lra.
  apply ewm_closed. lra.
Qed.

Lemma ewm_mean_nth_error (C : list R) (i : nat) :
  i < length C ->
  nth_error (ewm_mean 21 (map Some C)) i = Some (Some (ema_ref (1 / 22) C i)).
Proof.
  intros Hi. rewrite ewm_mean_closed, nth_error_map, nth_error_seq.
  destruct (Nat.ltb_spec i (length C)); [reflexivity | lia].
Qed.

(** ** Single-period returns *)

Lemma zip_with_length (A B D : Type) (f : A -> B -> D) (l1 : list A)
      (l2 : list B) :
  length (zip_with f l1 l2) = Nat.min (length l1) (length l2).
Proof.
  revert l2. induction l1 as [|a l1 IH]; intros [|b l2]; simpl; auto.
Qed.

Lemma zip_with_removelast (A B : Type) (f : A -> A -> B) (l : list A) (x : A) :
  zip_with f l (x :: removelast l) = zip_with f l (x :: l).
Proof.
  revert x. induction l as [|a l IH]; intros x; [reflexivity|].
  destruct l as [|b l]; [reflexivity|].
  change (removelast (a :: b :: l)) with (a :: removelast (b :: l)).
  cbn [zip_with]. f_equal. apply IH.
Qed.

Lemma nth_error_zip_shift (A B : Type) (f : A -> A -> B) (l : list A) (x : A)
      (j : nat) :
  nth_error (zip_with f l (x :: l)) (S j)
  = match nth_error l (S j), nth_error l j with
    | Some a, Some b => Some (f a b)
    | _, _ => None
    end.
Proof.
  revert x j. induction l as [|a l IH]; intros x j; [reflexivity|].
  cbn [zip_with nth_error]. destruct j as [|j].
  - destruct l as [|b l]; reflexivity.
  - rewrite IH. cbn [nth_error]. reflexivity.
Qed.

Lemma ffill_from_present (last : cell) (C : list R) :
  ffill_from last (map Some C) = map Some C.
Proof.
  revert last. induction C as [|c C IH]; intros last; simpl;
    [reflexivity | now rewrite IH].
Qed.

Lemma ffill_from_length (last : cell) (s : Series) :
  length (ffill_from last s) = length s.
Proof.
  revert last. induction s as [|[x|] s IH]; intros last; simpl;
    [reflexivity | now rewrite IH | now rewrite IH].
Qed.

(** With every price present, both fill conventions read the prices
    themselves, each divided by its predecessor. *)
Lemma pct_change_present (fill : fill_method) (C : list R) :
  pct_change fill (map Some C)
  = zip_with pct (map Some C) (None :: map Some C).
Proof.
  unfold pct_change.
  assert (match fill with
          | FillPad => ffill (map Some C)
          | FillNone => map Some C
          end = map Some C) as ->
      by (destruct fill; [apply ffill_from_present | reflexivity]).
  destruct C as [|c C]; [reflexivity|].
  unfold shift1. cbn [map]. apply zip_with_removelast.
Qed.

Lemma pct_change_length (fill : fill_method) (s : Series) :
  length (pct_change fill s) = length s.
Proof.
  unfold pct_change.
  set (data := match fill with FillPad => ffill s | FillNone => s end).
  assert (length data = length s) as Hlen
      by (subst data; destruct fill; [apply ffill_from_length | reflexivity]).
  rewrite zip_with_length. unfold shift1.
  destruct data as [|d data]; [simpl in *; lia|].
  cbn [length]. rewrite <- Hlen.
  assert (length (removelast (d :: data)) = length data) as ->.
  { clear. revert d. induction data as [|e data IH]; intros d; [reflexivity|].
    change (removelast (d :: e :: data)) with (d :: removelast (e :: data)).
    cbn [length]. now rewrite IH. }
  cbn [length]. lia.
Qed.

(** The first return is always missing: row 0 has no predecessor. *)
Lemma pct_change_head (fill : fill_method) (s : Series) :
  s <> [] -> exists rest, pct_change fill s = FNaN :: rest.
Proof.
  intros Hs. unfold pct_change.
  set (data := match fill with FillPad => ffill s | FillNone => s end).
  assert (data <> []) as Hd.
  { subst data. destruct fill; [|assumption].
    intros E. apply (f_equal (@length cell)) in E.
    unfold ffill in E. rewrite ffill_from_length in E.
    destruct s; [congruence | discriminate]. }
  destruct data as [|d data]; [congruence|].
  unfold shift1. cbn [zip_with].
  exists (zip_with pct data (removelast (d :: data))).
  f_equal. destruct d; reflexivity.
Qed.

Lemma pct_nonzero (c p : R) :
  p <> 0%R -> pct (Some c) (Some p) = FNum (c / p - 1).
Proof.
  intros Hp. unfold pct. destruct (Req_dec_T p 0); [contradiction | reflexivity].
Qed.

Lemma pct_change_nth_error (fill : fill_method) (C : list R) (j : nat) :
  S j < length C -> nth j C 0%R <> 0%R ->
  nth_error (pct_change fill (map Some C)) (S j)
  = Some (FNum (single_return C (S j))).
Proof.
  intros Hj Hnz. rewrite pct_change_present, nth_error_zip_shift.
  rewrite !nth_error_map.
  rewrite (nth_error_nth' C 0%R) by lia.
  rewrite (nth_error_nth' C 0%R) by lia.
  cbn [option_map]. rewrite pct_nonzero by assumption.
  unfold single_return. replace (S j - 1) with j by lia. reflexivity.
Qed.

Lemma Forall_nth_R (P : R -> Prop) (C : list R) (j : nat) :
  Forall P C -> j < length C -> P (nth j C 0%R).
Proof.
  intros H Hj. rewrite Forall_forall in H. apply H. now apply nth_In.
Qed.

(** ** The online variance in exact arithmetic *)

Lemma valid_app (l1 l2 : list cell) : valid (l1 ++ l2) = valid l1 ++ valid l2.
Proof.
  induction l1 as [|[x|] l1 IH]; simpl; [reflexivity | now rewrite IH | exact IH].
Qed.

Lemma Rsum_mean (W : list R) : Rsum W = (INR (length W) * mean W)%R.
Proof.
  unfold mean. destruct W as [|x W].
  - unfold Rsum. simpl. lra.
  - field. apply not_0_INR. discriminate.
Qed.

Lemma Rsum_sq_dev (m : R) (W : list R) :
  Rsum (map (fun x => ((x - m) * (x - m))%R) W)
  = (Rsumsq W - 2 * m * Rsum W + INR (length W) * (m * m))%R.
Proof.
  unfold Rsumsq, Rsum. induction W as [|x W IH].
  - simpl. lra.
  - cbn [map fold_right]. rewrite IH.
    change (length (x :: W)) with (S (length W)). rewrite S_INR. lra.
Qed.

Lemma ssqdm_alt (W : list R) :
  ssqdm W = (Rsumsq W - Rsum W * mean W)%R.
Proof.
  unfold ssqdm. rewrite Rsum_sq_dev. rewrite (Rsum_mean W) at 1 2. lra.
Qed.

Lemma Rsum_snoc (W : list R) (v : R) : Rsum (W ++ [v]) = (Rsum W + v)%R.
Proof. rewrite Rsum_app. unfold Rsum. simpl. lra. Qed.

Lemma Rsumsq_snoc (W : list R) (v : R) :
  Rsumsq (W ++ [v]) = (Rsumsq W + v * v)%R.
Proof. unfold Rsumsq. rewrite map_app, Rsum_app. unfold Rsum. simpl. lra. Qed.

Lemma mean_snoc (W : list R) (v : R) :
  mean (W ++ [v]) = ((INR (length W) * mean W + v) / (INR (length W) + 1))%R.
Proof.
  unfold mean at 1. rewrite Rsum_snoc, length_app, Nat.add_comm.
  cbn [length Nat.add]. rewrite S_INR, <- Rsum_mean. reflexivity.
Qed.

Lemma mean_cons (x : R) (W : list R) :
  mean (x :: W) = ((x + INR (length W) * mean W) / (INR (length W) + 1))%R.
Proof.
  unfold mean at 1. change (Rsum (x :: W)) with (x + Rsum W)%R.
  change (length (x :: W)) with (S (length W)).
  rewrite S_INR, <- Rsum_mean. reflexivity.
Qed.

Lemma mean_nil : mean [] = 0%R.
Proof. unfold mean, Rsum. simpl. unfold Rdiv. lra. Qed.

Lemma ssqdm_nil : ssqdm [] = 0%R.
Proof. reflexivity. Qed.

Lemma holds_window_init (first : option R) : holds_window [] (var_init first).
Proof.
  unfold holds_window, var_init. cbn [nobs mean_x ssqdm_x compensation_add
    compensation_remove a_zero Arith_R length].
  rewrite mean_nil, ssqdm_nil. auto.
Qed.

(** Welford's update when an observation enters the window. *)
Lemma add_var_holds (W : list R) (v : R) (st : var_state) :
  holds_window W st -> holds_window (W ++ [v]) (add_var (Some v) st).
Proof.
  intros (Hn & Hm & Hs & Ha & Hr).
  assert (0 <= INR (length W))%R as Hpos by apply pos_INR.
  unfold holds_window, add_var.
  cbn [nobs mean_x ssqdm_x compensation_add compensation_remove
       a_zero a_add a_sub a_mul a_div a_of_nat Arith_R Nat.eqb].
  rewrite Hn, Hm, Hs, Ha.
  split; [rewrite length_app, Nat.add_comm; reflexivity|].
  assert (mean W + (v - 0 - mean W) / INR (S (length W)) = mean (W ++ [v]))%R
    as Hmean.
  { rewrite mean_snoc, S_INR. field. lra. }
  split; [exact Hmean|].
  split.
  { rewrite Hmean, !ssqdm_alt, Rsumsq_snoc, Rsum_snoc, mean_snoc.
    rewrite (Rsum_mean W). field. lra. }
  split; [lra | exact Hr].
Qed.

(** The reverse update when the oldest observation leaves the window. *)
Lemma remove_var_holds (x : R) (W : list R) (st : var_state) :
  holds_window (x :: W) st -> holds_window W (remove_var (Some x) st).
Proof.
  intros (Hn & Hm & Hs & Ha & Hr).
  unfold holds_window, remove_var. rewrite Hn.
  change (length (x :: W) - 1) with (length W - 0). rewrite Nat.sub_0_r.
  destruct (Nat.eqb_spec (length W) 0) as [E|E].
  - cbn [nobs mean_x ssqdm_x compensation_add compensation_remove
         a_zero Arith_R].
    destruct W; [|discriminate]. rewrite mean_nil, ssqdm_nil. auto.
  - cbn [nobs mean_x ssqdm_x compensation_add compensation_remove
         a_zero a_add a_sub a_mul a_div a_of_nat Arith_R].
    rewrite Hm, Hs, Hr.
    assert (0 < INR (length W))%R as Hpos by (apply lt_0_INR; lia).
    split; [reflexivity|].
    assert (mean (x :: W) - (x - 0 - mean (x :: W)) / INR (length W)
            = mean W)%R as Hmean.
    { rewrite mean_cons. field. lra. }
    split; [exact Hmean|].
    split.
    { rewrite Hmean, !ssqdm_alt. unfold Rsumsq.
      change (Rsum (map (fun y => (y * y)%R) (x :: W)))
        with (x * x + Rsum (map (fun y => (y * y)%R) W))%R.
      change (Rsum (x :: W)) with (x + Rsum W)%R.
      rewrite mean_cons, (Rsum_mean W). field. lra. }
    split; [exact Ha | lra].
Qed.

Lemma add_cell_holds (M : list cell) (c : cell) (st : var_state) :
  holds_window (valid M) st -> holds_window (valid (M ++ [c])) (add_var c st).
Proof.
  intros H. rewrite valid_app. destruct c as [v|].
  - now apply add_var_holds.
  - cbn [valid add_var]. now rewrite app_nil_r.
Qed.

Lemma remove_cell_holds (c : cell) (M : list cell) (st : var_state) :
  holds_window (valid (c :: M)) st -> holds_window (valid M) (remove_var c st).
Proof.
  destruct c as [x|]; intros H; [now apply remove_var_holds | exact H].
Qed.

Lemma lastn_snoc (A : Type) (k : nat) (l : list A) (a : A) :
  k <= length l -> lastn (S k) (l ++ [a]) = lastn k l ++ [a].
Proof.
  intros Hk. unfold lastn. rewrite length_app, skipn_app. cbn [length].
  replace (length l + 1 - S k) with (length l - k) by lia.
  replace (length l - k - length l) with 0 by lia. reflexivity.
Qed.

Lemma lastn_suffix (A : Type) (P : A -> Prop) (k m : nat) (l : list A) :
  k <= m -> Forall P (lastn m l) -> Forall P (lastn k l).
Proof.
  intros Hkm H. unfold lastn in *.
  replace (length l - k) with ((length l - k - (length l - m)) + (length l - m))
    by lia.
  rewrite <- skipn_skipn. rewrite Forall_forall in *.
  intros a Ha. apply H.
  rewrite <- (firstn_skipn (length l - k - (length l - m))
                (skipn (length l - m) l)).
  apply in_or_app. now right.
Qed.

Lemma same_run_init (first : option R) : same_run [] (var_init first).
Proof.
  unfold same_run, var_init. cbn [num_consecutive_same_value prev_value length].
  split; [lia|]. destruct first; [constructor | reflexivity].
Qed.

Lemma same_run_remove (V : list R) (c : cell) (st : var_state) :
  same_run V st -> same_run V (remove_var c st).
Proof.
  intros H. destruct c as [x|]; [|exact H].
  unfold remove_var. destruct (nobs st - 1 =? 0); exact H.
Qed.

Lemma same_run_add (P : list cell) (c : cell) (st : var_state) :
  same_run (valid P) st -> same_run (valid (P ++ [c])) (add_var c st).
Proof.
  intros [Hle Hrun]. rewrite valid_app. destruct c as [v|].
  - cbn [valid]. unfold same_run, add_var.
    cbn [num_consecutive_same_value prev_value a_eqb Arith_R].
    destruct (prev_value st) as [p|].
    + destruct (Req_dec_T v p) as [->|_].
      * split; [rewrite length_app; cbn [length]; lia|].
        rewrite lastn_snoc by assumption.
        apply Forall_app. split; [exact Hrun | repeat constructor].
      * split; [rewrite length_app; cbn [length]; lia|].
        rewrite (@lastn_snoc R 0) by lia.
        apply Forall_app. split; [|repeat constructor].
        unfold lastn. rewrite Nat.sub_0_r, skipn_all. constructor.
    + split; [rewrite length_app; cbn [length]; lia|].
      rewrite (@lastn_snoc R 0) by lia.
      apply Forall_app. split; [|repeat constructor].
      unfold lastn. rewrite Nat.sub_0_r, skipn_all. constructor.
  - cbn [valid add_var]. rewrite app_nil_r. now split.
Qed.

Lemma ssqdm_all_equal (p : R) (W : list R) :
  Forall (eq p) W -> ssqdm W = 0%R.
Proof.
  intros H. destruct W as [|x W]; [reflexivity|].
  assert (forall l, Forall (eq p) l -> Rsum l = (INR (length l) * p)%R) as Hsum.
  { induction 1 as [|y l <- _ IH]; [unfold Rsum; simpl; lra|].
    change (Rsum (p :: l)) with (p + Rsum l)%R. rewrite IH.
    change (length (p :: l)) with (S (length l)). rewrite S_INR. lra. }
  assert (mean (x :: W) = p) as Hmean.
  { unfold mean. rewrite (Hsum _ H). field. apply not_0_INR. discriminate. }
  unfold ssqdm. rewrite Hmean. clear Hmean Hsum.
  induction H as [|y l <- _ IH]; [reflexivity|].
  change (Rsum (map (fun z => ((z - p) * (z - p))%R) (p :: l)))
    with ((p - p) * (p - p) + Rsum (map (fun z => ((z - p) * (z - p))%R) l))%R.
  rewrite IH. lra.
Qed.

Lemma zsqrt_R (x : R) : zsqrt x = sqrt x.
Proof.
  unfold zsqrt. cbn [a_ltb a_zero a_sqrt Arith_R].
  destruct (Rlt_dec x 0) as [Hneg|_]; [|reflexivity].
  symmetry. apply sqrt_neg_0. lra.
Qed.

(** The observations of a window are the last observations seen. *)
Lemma valid_window_suffix (w : nat) (s : Series) (i : nat) :
  valid (window w s i)
  = lastn (length (valid (window w s i))) (valid (firstn (S i) s)).
Proof.
  unfold window. set (l := firstn (S i) s). set (a := S i - w).
  rewrite <- (firstn_skipn a l) at 3. rewrite valid_app.
  unfold lastn. rewrite length_app, skipn_app.
  replace (length (valid (firstn a l)) + length (valid (skipn a l))
           - length (valid (skipn a l)))
    with (length (valid (firstn a l))) by lia.
  now rewrite skipn_all, Nat.sub_diag.
Qed.

(** What the kernel reports from a state that describes the window. *)
Lemma calc_var_two_pass (w : nat) (W V : list R) (st : var_state) :
  1 <= w ->
  holds_window W st -> same_run V st -> W = lastn (length W) V ->
  option_map zsqrt (calc_var (Nat.max w 1) 1 st)
  = (if w <=? length W
     then if length W <=? 1 then None else Some (std 1 W)
     else None).
Proof.
  intros Hw (Hn & Hm & Hs & _ & _) [Hle Hrun] Hsuffix.
  unfold calc_var. replace (Nat.max w 1) with w by lia. rewrite Hn.
  destruct (Nat.leb_spec w (length W)) as [Hfull|Hshort]; [|reflexivity].
  destruct (Nat.leb_spec (length W) 1) as [Hone|Hmany].
  - destruct (Nat.ltb_spec 1 (length W)); [lia | reflexivity].
  - destruct (Nat.ltb_spec 1 (length W)) as [_|]; [|lia].
    cbn [andb]. destruct (Nat.eqb_spec (length W) 1) as [|_]; [lia|].
    cbn [orb].
    destruct (Nat.leb_spec (length W) (num_consecutive_same_value st))
      as [Hsame|_]; cbn [option_map]; f_equal; rewrite zsqrt_R.
    + cbn [a_zero Arith_R]. unfold std.
      destruct (prev_value st) as [p|]; [|lia].
      rewrite (@ssqdm_all_equal p W).
      * unfold Rdiv. now rewrite Rmult_0_l.
      * rewrite Hsuffix. now apply (lastn_suffix _ Hsame).
    + cbn [a_div a_sub a_of_nat Arith_R]. unfold std. now rewrite Hs.
Qed.

Lemma firstn_S_snoc (s : Series) (i : nat) :
  i < length s -> firstn (S i) s = firstn i s ++ [nth i s None].
Proof.
  revert i. induction s as [|c s IH]; intros i Hi; [simpl in Hi; lia|].
  destruct i as [|i]; [reflexivity|].
  cbn [firstn nth app]. rewrite <- IH by (simpl in Hi; lia). reflexivity.
Qed.

(** Before the window is full, the next row only adds a cell. *)
Lemma window_grow (w : nat) (s : Series) (i : nat) :
  1 <= i -> i < w -> i < length s ->
  window w s (i - 1) = firstn i s
  /\ window w s i = firstn i s ++ [nth i s None].
Proof.
  intros Hi Hw Hlen. unfold window.
  replace (S (i - 1)) with i by lia.
  replace (i - w) with 0 by lia. replace (S i - w) with 0 by lia.
  split; [reflexivity | now apply firstn_S_snoc].
Qed.

(** Once it is full, the next row drops the oldest cell and adds one. *)
Lemma window_slide (w : nat) (s : Series) (i : nat) :
  1 <= w -> w <= i -> i < length s ->
  window w s (i - 1)
  = nth (i - w) s None :: skipn (S (i - w)) (firstn i s)
  /\ window w s i = skipn (S (i - w)) (firstn i s) ++ [nth i s None].
Proof.
  intros Hw Hi Hlen. unfold window.
  replace (S (i - 1)) with i by lia.
  replace (S i - w) with (S (i - w)) by lia.
  split.
  - assert (nth_error (firstn i s) (i - w) = Some (nth (i - w) s None)) as H.
    { rewrite nth_error_firstn.
      destruct (Nat.ltb_spec (i - w) i); [|lia].
      apply nth_error_nth'. lia. }
    rewrite <- (firstn_skipn_middle _ _ H) at 1.
    rewrite skipn_app, length_firstn, length_firstn.
    replace (Nat.min (i - w) (Nat.min i (length s))) with (i - w) by lia.
    rewrite Nat.sub_diag. cbn [skipn].
    rewrite skipn_all2 by (rewrite length_firstn, length_firstn; lia).
    reflexivity.
  - rewrite firstn_S_snoc by assumption.
    rewrite skipn_app, length_firstn.
    replace (S (i - w) - Nat.min i (length s)) with 0 by lia. reflexivity.
Qed.

Lemma roll_var_step_first (w : nat) (s : Series) (st : var_state) :
  1 <= w -> 0 < length s ->
  holds_window (valid (window w s 0)) (roll_var_step w s 0 st)
  /\ same_run (valid (firstn 1 s)) (roll_var_step w s 0 st).
Proof.
  intros Hw Hlen. destruct s as [|c s]; [simpl in Hlen; lia|].
  unfold roll_var_step, window_start, window_end, window.
  replace (1 - w) with 0 by lia.
  cbn [Nat.eqb orb Nat.sub seq add_range fold_left nth firstn skipn].
  split.
  - apply (@add_cell_holds [] c). apply holds_window_init.
  - apply (@same_run_add [] c). apply same_run_init.
Qed.

Lemma roll_var_step_next (w : nat) (s : Series) (i : nat) (st : var_state) :
  2 <= w -> 1 <= i -> i < length s ->
  holds_window (valid (window w s (i - 1))) st ->
  same_run (valid (firstn (S (i - 1)) s)) st ->
  holds_window (valid (window w s i)) (roll_var_step w s i st)
  /\ same_run (valid (firstn (S i) s)) (roll_var_step w s i st).
Proof.
  intros Hw Hi Hlen Hwin Hrun.
  unfold roll_var_step, window_start, window_end.
  destruct (Nat.eqb_spec i 0) as [|_]; [lia|].
  destruct (Nat.leb_spec (S (i - 1)) (S i - w)) as [|_]; [lia|].
  cbn [orb].
  replace (S (i - 1)) with i in * by lia.
  replace (S i - i) with 1 by lia.
  cbn [seq add_range fold_left].
  rewrite (firstn_S_snoc s Hlen).
  destruct (Nat.lt_ge_cases i w) as [Hgrow|Hfull].
  - replace (S i - w - (i - w)) with 0 by lia.
    cbn [seq remove_range fold_left].
    destruct (@window_grow w s i Hi Hgrow Hlen) as [Hprev Hcur].
    rewrite Hprev in Hwin. rewrite Hcur.
    split; [now apply add_cell_holds | now apply same_run_add].
  - replace (S i - w - (i - w)) with 1 by lia.
    cbn [seq remove_range fold_left].
    destruct (@window_slide w s i ltac:(lia) Hfull Hlen) as [Hprev Hcur].
    rewrite Hprev in Hwin. rewrite Hcur.
    split.
    + apply add_cell_holds. now apply remove_cell_holds.
    + apply same_run_add. now apply same_run_remove.
Qed.

Lemma roll_var_loop_two_pass (w : nat) (s : Series) :
  2 <= w ->
  forall m a st,
    a + m <= length s ->
    (a = 0
     \/ (holds_window (valid (window w s (a - 1))) st
         /\ same_run (valid (firstn (S (a - 1)) s)) st)) ->
    map (option_map zsqrt)
        (roll_var_loop w (Nat.max w 1) 1 s (seq a m) st)
    = map (fun i =>
             let obs := valid (window w s i) in
             if w <=? length obs
             then if length obs <=? 1 then None else Some (std 1 obs)
             else None)
          (seq a m).
Proof.
  intros Hw. induction m as [|m IH]; intros a st Hlen Hinv; [reflexivity|].
  cbn [seq roll_var_loop map].
  assert (holds_window (valid (window w s a)) (roll_var_step w s a st)
          /\ same_run (valid (firstn (S a) s)) (roll_var_step w s a st))
    as [Hwin Hrun].
  { destruct Hinv as [->|[Hwin Hrun]].
    - apply roll_var_step_first; lia.
    - destruct a as [|a]; [apply roll_var_step_first; lia|].
      apply roll_var_step_next; try assumption; lia. }
  f_equal.
  - cbv zeta.
    apply (@calc_var_two_pass w _ (valid (firstn (S a) s)));
      [lia | assumption | assumption | apply valid_window_suffix].
  - apply IH; [lia|]. right.
    replace (S a - 1) with a by lia. now split.
Qed.

(** In exact arithmetic the online kernel computes the two-pass sample
    standard deviation of each window. *)
Lemma rolling_std_exact (w : nat) (s : Series) :
  2 <= w -> rolling_std w s = rolling_std_two_pass w s.
Proof.
  intros Hw. unfold rolling_std, roll_std, roll_var.
  rewrite (@roll_var_loop_two_pass w s Hw (length s) 0 (var_init None));
    [reflexivity | lia | now left].
Qed.

Lemma rolling_std_length (w : nat) (s : Series) :
  2 <= w -> length (rolling_std w s) = length s.
Proof.
  intros Hw. rewrite rolling_std_exact by assumption.
  unfold rolling_std_two_pass. apply rolling_length.
Qed.

(** ** Rolling volatility *)

Lemma returns_length (fill : fill_method) (s : Series) :
  length (returns_of fill s) = length s.
Proof. unfold returns_of, prep_values. now rewrite length_map, pct_change_length. Qed.

(** Whatever the prices, the first 50 rows of the volatility are missing:
    their windows are short, or hold the missing return of row 0. *)
Lemma vol_warmup (fill : fill_method) (s : Series) (i : nat) :
  i < length s -> i < 50 ->
  nth_error (rolling_std 50 (returns_of fill s)) i = Some None.
Proof.
  intros Hi Hlt. rewrite rolling_std_exact by lia. unfold rolling_std_two_pass.
  apply rolling_short; [now rewrite returns_length|].
  rewrite window_prefix by lia.
  assert (s <> []) as Hs by (destruct s; [simpl in Hi; lia | discriminate]).
  destruct (pct_change_head fill Hs) as [rest Hrest].
  unfold returns_of, prep_values. rewrite Hrest.
  cbn [map prep_value firstn].
  pose proof (valid_None_head (firstn i (map prep_value rest))) as H.
  pose proof (firstn_le_length i (map prep_value rest)).
  eapply Nat.le_lt_trans; [exact H | lia].
Qed.

Lemma returns_nth (fill : fill_method) (C : list R) (j : nat) :
  Forall (fun c => c <> 0%R) C -> 1 <= j -> j < length C ->
  nth j (returns_of fill (map Some C)) None = Some (single_return C j).
Proof.
  intros Hnz Hlo Hj. destruct j as [|j]; [lia|].
  apply nth_error_nth. unfold returns_of, prep_values.
  rewrite nth_error_map, pct_change_nth_error; [reflexivity | assumption |].
  apply (@Forall_nth_R (fun c => c <> 0%R)); [assumption | lia].
Qed.

Lemma returns_window (fill : fill_method) (C : list R) (i : nat) :
  Forall (fun c => c <> 0%R) C -> 50 <= i -> i < length C ->
  window 50 (returns_of fill (map Some C)) i
  = map Some (map (single_return C) (seq (i - 49) 50)).
Proof.
  intros Hnz Hlo Hi.
  rewrite window_full; [| lia | lia | rewrite returns_length, length_map; lia].
  replace (S i - 50) with (i - 49) by lia.
  rewrite map_map. apply map_ext_in. intros j Hj. apply in_seq in Hj.
  apply returns_nth; [assumption | lia | lia].
Qed.

Lemma std_50 (xs : list R) :
  length xs = 50 ->
  std 1 xs
  = sqrt (Rsum (map (fun r => (r - Rsum xs / 50) * (r - Rsum xs / 50))%R xs) / 49).
Proof.
  intros Hlen. unfold std, ssqdm, mean. rewrite Hlen, INR_50.
  replace (50 - INR 1)%R with 49%R by (simpl; lra). reflexivity.
Qed.

Lemma vol_value (fill : fill_method) (C : list R) (i : nat) :
  Forall (fun c => c <> 0%R) C -> 50 <= i -> i < length C ->
  nth_error (rolling_std 50 (returns_of fill (map Some C))) i
  = Some (Some (vol_ref C i)).
Proof.
  intros Hnz Hlo Hi. rewrite rolling_std_exact by lia.
  unfold rolling_std_two_pass.
  rewrite (@rolling_full 50 _ (returns_of fill (map Some C)) i
             (map (single_return C) (seq (i - 49) 50))).
  - rewrite length_map, length_seq.
    change (50 <=? 1) with false. cbv iota.
    rewrite std_50 by now rewrite length_map, length_seq.
    reflexivity.
  - rewrite returns_length, length_map. lia.
  - now apply returns_window.
  - now rewrite length_map, length_seq.
Qed.

Lemma vol_nth_error (fill : fill_method) (C : list R) (i : nat) :
  Forall (fun c => c <> 0%R) C -> i < length C ->
  nth_error (rolling_std 50 (returns_of fill (map Some C))) i
  = Some (if i <? 50 then None else Some (vol_ref C i)).
Proof.
  intros Hnz Hi. destruct (Nat.ltb_spec i 50).
  - apply vol_warmup; [now rewrite length_map | assumption].
  - now apply vol_value.
Qed.


(** ** Row filtering and the reported tail *)

Lemma get_col_In (name : string) (df : DataFrame) (s : Series) :
  get_col name df = Some s -> In (name, s) (columns df).
Proof.
  unfold get_col. destruct (find _ (columns df)) as [c|] eqn:Hf; [|discriminate].
  intros [= <-]. apply find_some in Hf. destruct Hf as [Hin E].
  apply String.eqb_eq in E. rewrite E. now destruct c.
Qed.

Lemma row_complete_spec (df : DataFrame) (i : nat) :
  row_complete df i = true
  <-> forall c, In c (columns df) -> notna (nth i (snd c) None) = true.
Proof. unfold row_complete. apply forallb_forall. Qed.

Lemma kept_rows_spec (df : DataFrame) (i : nat) :
  In i (kept_rows df) <-> i < nrows df /\ row_complete df i = true.
Proof.
  unfold kept_rows. rewrite filter_In, in_seq. intuition lia.
Qed.

(** A missing cell in any column removes the row. *)
Lemma dropna_any_column (df : DataFrame) (c : string * Series) (i : nat) :
  In c (columns df) -> nth i (snd c) None = None -> ~ In i (kept_rows df).
Proof.
  intros Hin Hna Hkept. apply kept_rows_spec in Hkept.
  destruct Hkept as [_ Hrow]. rewrite row_complete_spec in Hrow.
  specialize (Hrow c Hin). rewrite Hna in Hrow. discriminate.
Qed.

Lemma filter_seq_none (f : nat -> bool) (a m : nat) :
  (forall i, a <= i < a + m -> f i = false) -> filter f (seq a m) = [].
Proof.
  revert a. induction m as [|m IH]; intros a H; [reflexivity|].
  simpl. rewrite (H a) by lia. apply IH. intros i Hi. apply H. lia.
Qed.

Lemma filter_seq_all (f : nat -> bool) (a m : nat) :
  (forall i, a <= i < a + m -> f i = true) -> filter f (seq a m) = seq a m.
Proof.
  revert a. induction m as [|m IH]; intros a H; [reflexivity|].
  simpl. rewrite (H a) by lia. f_equal. apply IH. intros i Hi. apply H. lia.
Qed.

(** Filtering the rows [0 .. n-1] by a threshold test keeps [k .. n-1]. *)
Lemma filter_seq_from (f : nat -> bool) (k n : nat) :
  (forall i, i < n -> f i = (k <=? i)) ->
  filter f (seq 0 n) = seq k (n - k).
Proof.
  intros H. destruct (Nat.le_gt_cases k n) as [Hkn|Hkn].
  - replace n with (k + (n - k)) at 1 by lia.
    rewrite seq_app, filter_app. simpl.
    rewrite filter_seq_none, filter_seq_all; [reflexivity | |].
    + intros i Hi. rewrite H by lia. apply Nat.leb_le. lia.
    + intros i Hi. rewrite H by lia. apply Nat.leb_gt. lia.
  - replace (n - k) with 0 by lia. simpl.
    apply filter_seq_none. intros i Hi. rewrite H by lia.
    apply Nat.leb_gt. lia.
Qed.

Lemma nrows_take_rows (rows : list nat) (df : DataFrame) :
  nrows (take_rows rows df) = length rows.
Proof. unfold nrows, take_rows. simpl. apply length_map. Qed.

Lemma nrows_dropna (df : DataFrame) : nrows (dropna df) = length (kept_rows df).
Proof. apply nrows_take_rows. Qed.

Lemma nth_tail_slice (A : Type) (d : A) (l : list A) (k : nat) :
  map (fun j => nth j l d) (seq (length l - k) (Nat.min k (length l)))
  = skipn (length l - k) l.
Proof.
  transitivity (skipn (length l - k) (firstn (length l) l));
    [|now rewrite firstn_all].
  rewrite (@slice_seq A d l (length l - k) (length l)) by lia.
  replace (length l - (length l - k)) with (Nat.min k (length l)) by lia.
  reflexivity.
Qed.

(** The tail of a row selection selects the last of those rows. *)
Lemma tail_take_rows (k : nat) (rows : list nat) (df : DataFrame) :
  tail k (take_rows rows df) = take_rows (skipn (length rows - k) rows) df.
Proof.
  unfold tail, tail_rows. rewrite nrows_take_rows.
  unfold take_rows. cbn [index columns]. f_equal.
  - rewrite <- (length_map (fun i => nth i (index df) 0%Z) rows).
    rewrite nth_tail_slice. rewrite length_map. now rewrite skipn_map.
  - rewrite map_map. apply map_ext. intros c. cbn [fst snd]. f_equal.
    rewrite <- (length_map (fun i => nth i (snd c) None) rows).
    rewrite nth_tail_slice. rewrite length_map. now rewrite skipn_map.
Qed.

Lemma analyze_performance_total (df : DataFrame) :
  analyze_performance df = (analysis_output (tail 5 (dropna df)), Ok tt).
Proof. reflexivity. Qed.

(** The volatility of any of the first 50 rows is missing, also for a
    table whose index is longer than its [Close] column. *)
Lemma vol_missing_early (fill : fill_method) (close : Series) (i : nat) :
  i < 50 -> nth i (rolling_std 50 (returns_of fill close)) None = None.
Proof.
  intros Hi. destruct (Nat.lt_ge_cases i (length close)) as [Hlt|Hge].
  - apply nth_error_nth. now apply vol_warmup.
  - apply nth_overflow.
    rewrite rolling_std_length by lia. now rewrite returns_length.
Qed.

Lemma In_enrich_Vol (fill : fill_method) (data : DataFrame) (close : Series) :
  In ("Volatility_50"%string, rolling_std 50 (returns_of fill close))
     (columns (enrich fill data close)).
Proof. apply get_col_In, get_col_enrich_Vol. Qed.

Lemma kept_rows_short (fill : fill_method) (data : DataFrame) (close : Series) :
  nrows data <= 50 -> kept_rows (enrich fill data close) = [].
Proof.
  intros Hn. unfold kept_rows. apply filter_seq_none. intros i Hi.
  assert (nrows (enrich fill data close) = nrows data) as Hrows by reflexivity.
  destruct (row_complete (enrich fill data close) i) eqn:Hrow; [|reflexivity].
  rewrite row_complete_spec in Hrow.
  specialize (Hrow _ (In_enrich_Vol fill data close)). cbn [snd] in Hrow.
  rewrite vol_missing_early in Hrow by lia. discriminate.
Qed.

Lemma notna_nth_present (C : list R) (i : nat) :
  i < length C -> notna (nth i (map Some C) None) = true.
Proof.
  intros Hi.
  rewrite (nth_error_nth (map Some C) i None (x := Some (nth i C 0%R)));
    [reflexivity|].
  rewrite nth_error_map, (nth_error_nth' C 0%R) by assumption. reflexivity.
Qed.

(** On a table without gaps and with nonzero prices, exactly the rows
    from 50 on are complete after enrichment. *)
Lemma kept_rows_complete_table (fill : fill_method) (data : DataFrame)
      (C : list R) :
  nrows data = length C ->
  Forall (fun c => c <> 0%R) C ->
  (forall c, In c (columns data) -> ~ In (fst c) indicator_names ->
             forall i, i < nrows data -> notna (nth i (snd c) None) = true) ->
  kept_rows (enrich fill data (map Some C)) = seq 50 (length C - 50).
Proof.
  intros Hn Hnz Hothers. unfold kept_rows.
  change (nrows (enrich fill data (map Some C))) with (nrows data).
  rewrite Hn. apply filter_seq_from. intros i Hi.
  destruct (Nat.leb_spec 50 i) as [Hge|Hlt].
  - apply row_complete_spec. intros c Hc. apply In_enrich in Hc.
    destruct Hc as [[<-|[<-|[<-|[]]]]|[Hin Hname]]; cbn [snd].
    + rewrite (nth_error_nth _ _ _ (sma_nth_error C Hi)).
      destruct (Nat.ltb_spec i 49); [lia | reflexivity].
    + now rewrite (nth_error_nth _ _ _ (ewm_mean_nth_error C Hi)).
    + rewrite (nth_error_nth _ _ _ (vol_nth_error fill Hnz Hi)).
      destruct (Nat.ltb_spec i 50); [lia | reflexivity].
    + apply Hothers; [assumption | assumption | lia].
  - destruct (row_complete (enrich fill data (map Some C)) i) eqn:Hrow;
      [|reflexivity].
    rewrite row_complete_spec in Hrow.
    specialize (Hrow _ (In_enrich_Vol fill data (map Some C))).
    cbn [snd] in Hrow. rewrite vol_missing_early in Hrow by lia. discriminate.
Qed.

Lemma flat_prices_nonzero (n : nat) : Forall (fun c => c <> 0%R) (flat_prices n).
Proof.
  apply Forall_forall. intros x Hx. apply repeat_spec in Hx. subst x. lra.
Qed.


Lemma length_dates (n : nat) : length (dates n) = n.
Proof. unfold dates. now rewrite length_map, length_seq. Qed.

Lemma length_flat_prices (n : nat) : length (flat_prices n) = n.
Proof. apply repeat_length. Qed.

(** ** The primitives on small inputs *)

(** Compare two columns cell by cell, leaving the arithmetic on the
    values. *)
Ltac by_cells :=
  repeat match goal with
         | |- _ :: _ = _ :: _ => apply f_equal2
         | |- Some _ = Some _ => apply f_equal
         | |- FNum _ = FNum _ => apply f_equal
         | |- sqrt _ = sqrt _ => apply f_equal
         | |- _ = _ => reflexivity
         end.

Example rolling_mean_skips_short_windows :
  rolling_mean 2 [Some 1; Some 3; None; Some 5]%R
  = [None; Some 2%R; None; None].
Proof.
  unfold rolling_mean, rolling, mean, Rsum. simpl.
  by_cells; lra.
Qed.

Example rolling_std_two_rows :
  rolling_std 2 [Some 1; Some 3]%R = [None; Some (sqrt 2)].
Proof.
  rewrite rolling_std_exact by lia.
  unfold rolling_std_two_pass, rolling, std, ssqdm, mean, Rsum. simpl.
  by_cells; lra.
Qed.

Example ewm_mean_two_rows :
  ewm_mean 21 [Some 1; Some 2]%R = [Some 1%R; Some (65 / 43)%R].
Proof.
  unfold ewm_mean. simpl.
  destruct (Req_dec_T 1 2) as [E|_]; [lra|].
  by_cells; lra.
Qed.

Example ewm_mean_carries_over_gaps :
  ewm_mean 21 [None; Some 4; None]%R = [None; Some 4%R; Some 4%R].
Proof. reflexivity. Qed.

Example pct_change_zero_price :
  pct_change FillPad [Some 1; Some 2; Some 0; Some 3]%R
  = [FNaN; FNum 1; FNum (-1); FInf].
Proof.
  unfold pct_change, ffill, shift1, pct. simpl.
  destruct (Req_dec_T 1 0) as [E|_]; [lra|].
  destruct (Req_dec_T 2 0) as [E|_]; [lra|].
  destruct (Req_dec_T 0 0) as [_|E]; [|lra].
  destruct (Req_dec_T 3 0) as [E|_]; [lra|].
  by_cells; lra.
Qed.

Example pct_change_fill_conventions :
  pct_change FillPad [Some 1; None; Some 3]%R = [FNaN; FNum 0; FNum 2]
  /\ pct_change FillNone [Some 1; None; Some 3]%R = [FNaN; FNaN; FNaN].
Proof.
  unfold pct_change, ffill, shift1, pct. simpl.
  destruct (Req_dec_T 1 0) as [E|_]; [lra|].
  split; [|reflexivity]. by_cells; lra.
Qed.

Example setitem_overwrites_in_place :
  map fst (columns (setitem stale_sma_table "Close" [None]))
  = ["Close"; "SMA_50"]%string
  /\ map fst (columns (setitem stale_sma_table "EMA_21" [None]))
     = ["Close"; "SMA_50"; "EMA_21"]%string.
Proof. split; reflexivity. Qed.

Example dropna_tail_rows :
  kept_rows (mkFrame (dates 3)
               [("Close"%string, [Some 1; None; Some 3]%R);
                ("Open"%string, [Some 1; Some 2; Some 3]%R)])
  = [0; 2]
  /\ tail_rows 5 (flat_table 3) = [0; 1; 2]
  /\ tail_rows 5 (flat_table 7) = [2; 3; 4; 5; 6].
Proof. repeat split; reflexivity. Qed.

(** ** The constant series *)

Lemma Rsum_const_map (A : Type) (c : R) (f : A -> R) (l : list A) :
  (forall a, In a l -> f a = c) -> Rsum (map f l) = (INR (length l) * c)%R.
Proof.
  induction l as [|a l IH]; intros H.
  - unfold Rsum. simpl. lra.
  - change (Rsum (map f (a :: l))) with (f a + Rsum (map f l))%R.
    rewrite (H a) by now left.
    rewrite IH by (intros b Hb; apply H; now right).
    change (length (a :: l)) with (S (length l)). rewrite S_INR. lra.
Qed.

Lemma nth_flat_prices (n j : nat) : j < n -> nth j (flat_prices n) 0%R = 100%R.
Proof.
  intros Hj. apply (@repeat_spec R n 100%R). apply nth_In.
  now rewrite length_flat_prices.
Qed.

Lemma sma_ref_flat (n i : nat) :
  49 <= i -> i < n -> sma_ref (flat_prices n) i = 100%R.
Proof.
  intros Hlo Hi. unfold sma_ref.
  rewrite (@Rsum_const_map nat 100%R).
  - rewrite length_seq, INR_50. lra.
  - intros j Hj. apply in_seq in Hj. apply nth_flat_prices. lia.
Qed.

Lemma ema_ref_flat (n i : nat) :
  i < n -> ema_ref (1 / 22) (flat_prices n) i = 100%R.
Proof.
  intros Hi. unfold ema_ref.
  assert (ema_num (1 / 22) (flat_prices n) i = 100 * ema_den (1 / 22) i)%R as ->.
  { unfold ema_num, ema_den. apply Rsum_map_scale.
    intros j Hj. apply in_seq in Hj. rewrite nth_flat_prices by lia. lra. }
  assert (1 <= ema_den (1 / 22) i)%R by (apply ema_den_pos; lra).
  field. lra.
Qed.

Lemma vol_ref_flat (n i : nat) :
  50 <= i -> i < n -> vol_ref (flat_prices n) i = 0%R.
Proof.
  intros Hlo Hi. unfold vol_ref.
  assert (map (single_return (flat_prices n)) (seq (i - 49) 50)
          = map (fun _ => 0%R) (seq (i - 49) 50)) as ->.
  { apply map_ext_in. intros j Hj. apply in_seq in Hj.
    unfold single_return. rewrite !nth_flat_prices by lia. field. }
  cbv zeta.
  rewrite (@Rsum_const_map nat 0%R (fun _ => 0%R)) by reflexivity.
  rewrite map_map.
  rewrite (@Rsum_const_map nat 0%R) by (intros; lra).
  rewrite length_seq, INR_50.
  replace (50 * 0 / 49)%R with 0%R by lra. apply sqrt_0.
Qed.

(** The 60-row series of constant price 100: [SMA_50] is 100 on rows
    49..59, [EMA_21] is 100 on every row, [Volatility_50] is 0 on rows
    50..59, and the report shows the rows 55..59. *)
Lemma flat_series_scenario (fill : fill_method) :
  exists out data' sma ema vol,
    calculate_indicators fill (flat_table 60) = (out, Ok data')
    /\ get_col "SMA_50" data' = Some sma
    /\ get_col "EMA_21" data' = Some ema
    /\ get_col "Volatility_50" data' = Some vol
    /\ (forall i, i < 60 ->
          nth_error sma i = Some (if i <? 49 then None else Some 100%R))
    /\ (forall i, i < 60 -> nth_error ema i = Some (Some 100%R))
    /\ (forall i, i < 60 ->
          nth_error vol i = Some (if i <? 50 then None else Some 0%R))
    /\ kept_rows data' = seq 50 10
    /\ index (tail 5 (dropna data')) = [55; 56; 57; 58; 59]%Z.
Proof.
  assert (get_col "Close" (flat_table 60) = Some (map Some (flat_prices 60)))
    as Hc by reflexivity.
  assert (nrows (flat_table 60) = length (flat_prices 60)) as Hn
      by (rewrite length_flat_prices; apply length_dates).
  assert (kept_rows (enrich fill (flat_table 60) (map Some (flat_prices 60)))
          = seq 50 10) as Hkept.
  { rewrite (@kept_rows_complete_table fill (flat_table 60) (flat_prices 60) Hn
               (flat_prices_nonzero 60)).
    - now rewrite length_flat_prices.
    - intros c [<-|[]] _ i Hi. cbn [snd]. apply notna_nth_present.
      now rewrite <- Hn. }
  eexists. exists (enrich fill (flat_table 60) (map Some (flat_prices 60))).
  exists (rolling_mean 50 (map Some (flat_prices 60))),
         (ewm_mean 21 (map Some (flat_prices 60))),
         (rolling_std 50 (returns_of fill (map Some (flat_prices 60)))).
  split; [apply (calculate_indicators_ok fill (flat_table 60) Hc)|].
  split; [apply get_col_enrich_SMA|].
  split; [apply get_col_enrich_EMA|].
  split; [apply get_col_enrich_Vol|].
  split.
  { intros i Hi. rewrite sma_nth_error by now rewrite length_flat_prices.
    destruct (Nat.ltb_spec i 49); [reflexivity|].
    now rewrite sma_ref_flat. }
  split.
  { intros i Hi. rewrite ewm_mean_nth_error by now rewrite length_flat_prices.
    now rewrite ema_ref_flat. }
  split.
  { intros i Hi.
    rewrite vol_nth_error;
      [| apply flat_prices_nonzero | now rewrite length_flat_prices].
    destruct (Nat.ltb_spec i 50); [reflexivity|].
    now rewrite vol_ref_flat. }
  split; [exact Hkept|].
  unfold dropna. rewrite tail_take_rows, Hkept. reflexivity.
Qed.

(** ** Binary64: rounding never yields NaN from a nonnegative mantissa *)

Unset Implicit Arguments.

Section Rounding.

Variables prec emax : Z.










End Rounding.

(** ** Binary64: the quotient of [pct_change] *)






Set Implicit Arguments.

(** ** The price jump *)






(** * The claims *)



(** C8: no look-ahead.  When two closing-price columns agree on every
    index [j <= i], the [SMA_50] cells produced at index [i] coincide:
    both hold the same value, both are undefined, or the row exists in
    neither table. *)
Theorem sma_no_lookahead (fill : fill_method) (d1 d2 : DataFrame)
        (s1 s2 : Series) (i : nat) :
  get_col "Close" d1 = Some s1 ->
  get_col "Close" d2 = Some s2 ->
  (forall j, j <= i -> nth_error s1 j = nth_error s2 j) ->
  exists sma1 sma2,
    indicator_column fill d1 "SMA_50" = Some sma1
    /\ indicator_column fill d2 "SMA_50" = Some sma2
    /\ nth_error sma1 i = nth_error sma2 i.
Proof.
  intros H1 H2 Hagree.
  exists (rolling_mean 50 s1), (rolling_mean 50 s2).
  rewrite (indicator_column_enrich fill d1 "SMA_50" H1).
  rewrite (indicator_column_enrich fill d2 "SMA_50" H2).
  rewrite !get_col_enrich_SMA.
  split; [reflexivity | split; [reflexivity|]].
  unfold rolling_mean. now apply rolling_causal.
Qed.

Lemma sma_no_lookahead_witness :
  exists sma1 sma2,
    indicator_column FillPad (flat_table 50) "SMA_50" = Some sma1
    /\ indicator_column FillPad
         (mkFrame (dates 51)
            [("Close"%string, map Some (flat_prices 50) ++ [Some 7%R])])
         "SMA_50" = Some sma2
    /\ nth_error sma1 49 = nth_error sma2 49.
Proof.
  apply (@sma_no_lookahead FillPad (flat_table 50)
           (mkFrame (dates 51)
              [("Close"%string, map Some (flat_prices 50) ++ [Some 7%R])])
           (map Some (flat_prices 50))
           (map Some (flat_prices 50) ++ [Some 7%R]) 49).
  - reflexivity.
  - reflexivity.
  - intros j Hj. symmetry. apply nth_error_app1.
    rewrite length_map. unfold flat_prices. rewrite repeat_length. lia.
Defined.

(** C2: for a closing-price sequence [C] of length [n >= 1], the
    [EMA_21] column is defined at every index, [ema[0] = C[0]], and
    [ema[i]] is the weighted average of [C[0..i]] with weights
    [(1-alpha)^(i-j)] renormalised by the sum of the weights up to [i],
    for [alpha = 1/22]; already at index 1 this differs from the
    recursion [alpha * C[1] + (1 - alpha) * ema[0]] whenever
    [C[1] <> C[0]]. *)
Theorem ema_adjusted_weighted_average (fill : fill_method) (data : DataFrame)
        (C : list R) :
  1 <= length C ->
  get_col "Close" data = Some (map Some C) ->
  exists ema,
    indicator_column fill data "EMA_21" = Some ema
    /\ length ema = length C
    /\ (forall i, i < length C ->
          nth_error ema i = Some (Some (ema_ref (1 / 22) C i)))
    /\ nth_error ema 0 = Some (Some (nth 0 C 0%R))
    /\ (2 <= length C -> nth 1 C 0%R <> nth 0 C 0%R ->
        nth_error ema 1
        <> Some (Some (ema_recursive_step (1 / 22) (nth 0 C 0%R) (nth 1 C 0%R)))).
Proof.
  intros Hn Hc. exists (ewm_mean 21 (map Some C)).
  assert (0 <= 1 - 1 / 22)%R as Hq by lra.
  assert (ema_ref (1 / 22) C 0 = nth 0 C 0%R) as H0.
  { unfold ema_ref. rewrite ema_num_0, ema_den_0. field. }
  split; [|split; [|split; [|split]]].
  - rewrite (indicator_column_enrich fill data "EMA_21" Hc).
    apply get_col_enrich_EMA.
  - now rewrite ewm_mean_closed, length_map, length_seq.
  - intros i Hi. now apply ewm_mean_nth_error.
  - rewrite ewm_mean_nth_error by lia. now rewrite H0.
  - intros H2 Hne. rewrite ewm_mean_nth_error by lia.
    intros E. injection E as E. apply Hne.
    unfold ema_ref, ema_recursive_step in E.
    rewrite ema_num_S, ema_den_S, ema_num_0, ema_den_0 in E.
    assert (((1 - 1 / 22) * nth 0 C 0 + nth 1 C 0) / ((1 - 1 / 22) * 1 + 1)
            = (21 * nth 0 C 0 + 22 * nth 1 C 0) / 43)%R as E' by field.
    rewrite E' in E. lra.
Qed.

Lemma ema_adjusted_weighted_average_witness :
  exists ema,
    indicator_column FillPad rising_table "EMA_21" = Some ema
    /\ length ema = length rising_prices
    /\ (forall i, i < length rising_prices ->
          nth_error ema i = Some (Some (ema_ref (1 / 22) rising_prices i)))
    /\ nth_error ema 0 = Some (Some (nth 0 rising_prices 0%R))
    /\ (2 <= length rising_prices ->
        nth 1 rising_prices 0%R <> nth 0 rising_prices 0%R ->
        nth_error ema 1
        <> Some (Some (ema_recursive_step (1 / 22) (nth 0 rising_prices 0%R)
                         (nth 1 rising_prices 0%R)))).
Proof.
  apply (@ema_adjusted_weighted_average FillPad rising_table rising_prices).
  - simpl. lia.
  - reflexivity.
Defined.







(** C7: for every input table with at most 50 rows, [dropna] keeps no
    row of the enriched table, and [analyze_performance] still returns
    normally: it prints its two lines and an empty table. *)
Theorem short_series_reports_empty (fill : fill_method) (data : DataFrame)
        (close : Series) :
  get_col "Close" data = Some close ->
  nrows data <= 50 ->
  exists out data',
    calculate_indicators fill data = (out, Ok data')
    /\ kept_rows data' = []
    /\ nrows (dropna data') = 0
    /\ analyze_performance data'
       = (analysis_output (tail 5 (dropna data')), Ok tt)
    /\ nrows (tail 5 (dropna data')) = 0.
Proof.
  intros Hc Hn. eexists. exists (enrich fill data close).
  split; [apply (calculate_indicators_ok fill data Hc)|].
  pose proof (kept_rows_short fill data close Hn) as Hkept.
  split; [exact Hkept|].
  split; [rewrite nrows_dropna, Hkept; reflexivity|].
  split; [apply analyze_performance_total|].
  unfold dropna. rewrite Hkept, tail_take_rows, nrows_take_rows. reflexivity.
Qed.

Lemma short_series_reports_empty_witness :
  exists out data',
    calculate_indicators FillPad (flat_table 10) = (out, Ok data')
    /\ kept_rows data' = []
    /\ nrows (dropna data') = 0
    /\ analyze_performance data'
       = (analysis_output (tail 5 (dropna data')), Ok tt)
    /\ nrows (tail 5 (dropna data')) = 0.
Proof.
  apply (@short_series_reports_empty FillPad (flat_table 10)
           (map Some (flat_prices 10))).
  - reflexivity.
  - unfold nrows, flat_table, dates. cbn [index].
    rewrite length_map, length_seq. lia.
Defined.

Lemma row_incomplete (df : DataFrame) (c : string * Series) (i : nat) :
  In c (columns df) -> nth i (snd c) None = None -> row_complete df i = false.
Proof.
  intros Hin Hna. destruct (row_complete df i) eqn:Hrow; [|reflexivity].
  rewrite row_complete_spec in Hrow. specialize (Hrow c Hin).
  rewrite Hna in Hrow. discriminate.
Qed.

Lemma In_skipn (A : Type) (k : nat) (l : list A) (a : A) :
  In a (skipn k l) -> In a l.
Proof.
  intros H. rewrite <- (firstn_skipn k l). apply in_or_app. now right.
Qed.

Lemma filter_seq_sorted (f : nat -> bool) (m : nat) :
  forall a, StronglySorted lt (filter f (seq a m)).
Proof.
  induction m as [|m IH]; intros a; [constructor|].
  cbn [seq filter]. destruct (f a); [|apply IH].
  constructor; [apply IH|].
  apply Forall_forall. intros j Hj. apply filter_In in Hj.
  destruct Hj as [Hj _]. apply in_seq in Hj. lia.
Qed.

Lemma filter_length_lt (A : Type) (f : A -> bool) (l : list A) (a : A) :
  In a l -> f a = false -> length (filter f l) < length l.
Proof.
  induction l as [|b l IH]; intros Hin Hf; [destruct Hin|].
  cbn [filter]. destruct Hin as [->|Hin].
  - rewrite Hf. pose proof (filter_length_le f l). simpl. lia.
  - specialize (IH Hin Hf). destruct (f b); simpl; lia.
Qed.

(** What [dropna] does to a row with a missing cell: the result is the
    selection of an increasing list of row positions that leaves the
    row out, so it has fewer rows, and a unique date of that row is gone
    from its index. *)
Lemma dropna_drops_row (df : DataFrame) (c : string * Series) (j : nat) :
  In c (columns df) -> nth j (snd c) None = None ->
  exists rows,
    dropna df = take_rows rows df
    /\ ~ In j rows
    /\ StronglySorted lt rows
    /\ Forall (fun r => r < nrows df) rows
    /\ (j < nrows df -> nrows (dropna df) < nrows df)
    /\ (j < nrows df -> NoDup (index df) ->
        ~ In (nth j (index df) 0%Z) (index (dropna df))).
Proof.
  intros Hin Hna. exists (kept_rows df).
  pose proof (dropna_any_column df c j Hin Hna) as Hout.
  split; [reflexivity|]. split; [exact Hout|].
  split; [apply filter_seq_sorted|].
  split.
  { apply Forall_forall. intros r Hr. now apply kept_rows_spec in Hr. }
  split.
  { intros Hj. rewrite nrows_dropna. unfold kept_rows.
    apply Nat.lt_le_trans with (m := length (seq 0 (nrows df)));
      [|rewrite length_seq; lia].
    apply (@filter_length_lt nat _ _ j); [apply in_seq; lia|].
    now apply (@row_incomplete df c j). }
  intros Hj Hnodup Habs.
  unfold dropna, take_rows in Habs. cbn [index] in Habs.
  apply in_map_iff in Habs. destruct Habs as [r [Heq Hr]].
  assert (r < nrows df) as Hrn by now apply kept_rows_spec in Hr.
  assert (r = j) as ->; [|contradiction].
  apply (proj1 (NoDup_nth (index df) 0%Z) Hnodup); assumption.
Qed.

(** C6: [dropna] removes a row as soon as ANY column is missing there:
    its result is a selection of rows that leaves that row out.  So, for
    a table whose closing prices are all present and nonzero, a row
    [i >= 50] with a missing cell in a column other than the three
    indicators is absent from the filtered table and from the table
    that [analyze_performance] shows, although [SMA_50], [EMA_21] and
    [Volatility_50] are all defined at [i]. *)
Theorem dropna_considers_every_column (fill : fill_method) (data : DataFrame)
        (C : list R) (name : string) (col : Series) (i : nat) :
  get_col "Close" data = Some (map Some C) ->
  Forall (fun c => c <> 0%R) C ->
  In (name, col) (columns data) ->
  ~ In name indicator_names ->
  50 <= i -> i < length C -> i < nrows data ->
  nth i col None = None ->
  (forall df c j, In c (columns df) -> nth j (snd c) None = None ->
     exists rows,
       dropna df = take_rows rows df
       /\ ~ In j rows
       /\ StronglySorted lt rows
       /\ Forall (fun r => r < nrows df) rows)
  /\ exists out data' sma ema vol rows shown_rows,
       calculate_indicators fill data = (out, Ok data')
       /\ get_col "SMA_50" data' = Some sma
       /\ get_col "EMA_21" data' = Some ema
       /\ get_col "Volatility_50" data' = Some vol
       /\ notna (nth i sma None) = true
       /\ notna (nth i ema None) = true
       /\ notna (nth i vol None) = true
       /\ In (name, col) (columns data')
       /\ dropna data' = take_rows rows data'
       /\ ~ In i rows
       /\ StronglySorted lt rows
       /\ Forall (fun r => r < nrows data') rows
       /\ nrows (dropna data') < nrows data'
       /\ (NoDup (index data) ->
           ~ In (nth i (index data) 0%Z) (index (dropna data')))
       /\ analyze_performance data'
          = (analysis_output (take_rows shown_rows data'), Ok tt)
       /\ ~ In i shown_rows.
Proof.
  intros Hc Hnz Hin Hname Hlo Hi Hrow Hna.
  split.
  { intros df c j Hc0 Hj.
    destruct (dropna_drops_row df c j Hc0 Hj) as (rows & H1 & H2 & H3 & H4 & _).
    now exists rows. }
  assert (In (name, col) (columns (enrich fill data (map Some C)))) as Hin'
      by (apply In_enrich; right; split; assumption).
  destruct (dropna_drops_row (enrich fill data (map Some C)) (name, col) i
              Hin' Hna)
    as (rows & Hsel & Hout & Hsorted & Hbound & Hfewer & Hdate).
  eexists. exists (enrich fill data (map Some C)).
  exists (rolling_mean 50 (map Some C)), (ewm_mean 21 (map Some C)),
         (rolling_std 50 (returns_of fill (map Some C))).
  exists rows, (skipn (length rows - 5) rows).
  split; [apply (calculate_indicators_ok fill data Hc)|].
  split; [apply get_col_enrich_SMA|].
  split; [apply get_col_enrich_EMA|].
  split; [apply get_col_enrich_Vol|].
  split.
  { rewrite (nth_error_nth _ _ _ (sma_nth_error C Hi)).
    destruct (Nat.ltb_spec i 49); [lia | reflexivity]. }
  split.
  { now rewrite (nth_error_nth _ _ _ (ewm_mean_nth_error C Hi)). }
  split.
  { rewrite (nth_error_nth _ _ _ (vol_nth_error fill Hnz Hi)).
    destruct (Nat.ltb_spec i 50); [lia | reflexivity]. }
  split; [exact Hin'|].
  split; [exact Hsel|]. split; [exact Hout|]. split; [exact Hsorted|].
  split; [exact Hbound|].
  split; [apply Hfewer; exact Hrow|].
  split; [intros Hnodup; apply Hdate; assumption|].
  split.
  - rewrite analyze_performance_total, Hsel, tail_take_rows. reflexivity.
  - intros Habs. apply Hout. eapply In_skipn. exact Habs.
Qed.

Lemma dropna_considers_every_column_witness :
  (forall df c j, In c (columns df) -> nth j (snd c) None = None ->
     exists rows,
       dropna df = take_rows rows df
       /\ ~ In j rows
       /\ StronglySorted lt rows
       /\ Forall (fun r => r < nrows df) rows)
  /\ exists out data' sma ema vol rows shown_rows,
       calculate_indicators FillPad open_gap_table = (out, Ok data')
       /\ get_col "SMA_50" data' = Some sma
       /\ get_col "EMA_21" data' = Some ema
       /\ get_col "Volatility_50" data' = Some vol
       /\ notna (nth 50 sma None) = true
       /\ notna (nth 50 ema None) = true
       /\ notna (nth 50 vol None) = true
       /\ In ("Open"%string, map Some (flat_prices 50) ++ [None])
             (columns data')
       /\ dropna data' = take_rows rows data'
       /\ ~ In 50 rows
       /\ StronglySorted lt rows
       /\ Forall (fun r => r < nrows data') rows
       /\ nrows (dropna data') < nrows data'
       /\ (NoDup (index open_gap_table) ->
           ~ In (nth 50 (index open_gap_table) 0%Z) (index (dropna data')))
       /\ analyze_performance data'
          = (analysis_output (take_rows shown_rows data'), Ok tt)
       /\ ~ In 50 shown_rows.
Proof.
  apply (@dropna_considers_every_column FillPad open_gap_table
           (flat_prices 51) "Open" (map Some (flat_prices 50) ++ [None]) 50).
  - reflexivity.
  - apply flat_prices_nonzero.
  - left. reflexivity.
  - unfold indicator_names. intros [E|[E|[E|[]]]]; discriminate.
  - lia.
  - rewrite length_flat_prices. lia.
  - unfold nrows, open_gap_table. cbn [index]. rewrite length_dates. lia.
  - reflexivity.
Defined.

Lemma well_formed_col (df : DataFrame) (name : string) (s : Series) :
  well_formed df -> get_col name df = Some s -> length s = nrows df.
Proof.
  intros Hwf Hc. apply get_col_In in Hc.
  unfold well_formed in Hwf. rewrite Forall_forall in Hwf.
  apply (Hwf _ Hc).
Qed.






(** Columns that do not bear an indicator name pass through
    [calculate_indicators] untouched, whatever the table. *)
Lemma get_col_enrich_other (fill : fill_method) (data : DataFrame)
      (close : Series) (name : string) :
  ~ In name indicator_names ->
  get_col name (enrich fill data close) = get_col name data.
Proof.
  intros Hname. unfold enrich, indicator_columns. cbn [fold_left fst snd].
  rewrite !get_col_setitem_other; [reflexivity | | |];
    intros E; apply Hname; unfold indicator_names; rewrite E; simpl; auto.
Qed.

Lemma columns_enrich_fresh (fill : fill_method) (data : DataFrame)
      (close : Series) :
  (forall name, In name indicator_names -> has_col name data = false) ->
  columns (enrich fill data close)
  = columns data ++ indicator_columns fill close.
Proof.
  intros Hfresh. unfold enrich, indicator_columns. cbn [fold_left fst snd].
  rewrite setitem_fresh.
  - rewrite setitem_fresh.
    + rewrite setitem_fresh by (apply Hfresh; simpl; auto).
      rewrite <- !app_assoc. reflexivity.
    + rewrite has_col_setitem_other by discriminate.
      apply Hfresh. simpl. auto.
  - rewrite !has_col_setitem_other by discriminate.
    apply Hfresh. simpl. auto.
Qed.

(** C9, as the code has it: on a table that has a [Close] column and no
    column named [SMA_50], [EMA_21] or [Volatility_50],
    [calculate_indicators] only appends: the row index (hence row order
    and row count) is unchanged and the columns of the result are the
    input columns, unchanged and in their order, followed by the three
    new ones. *)
Theorem calculate_indicators_appends (fill : fill_method) (data : DataFrame)
        (close : Series) :
  get_col "Close" data = Some close ->
  (forall name, In name indicator_names -> has_col name data = false) ->
  exists out data',
    calculate_indicators fill data = (out, Ok data')
    /\ index data' = index data
    /\ nrows data' = nrows data
    /\ columns data' = columns data ++ indicator_columns fill close
    /\ get_col "Close" data' = Some close.
Proof.
  intros Hc Hfresh. eexists. exists (enrich fill data close).
  split; [apply (calculate_indicators_ok fill data Hc)|].
  split; [reflexivity|]. split; [reflexivity|].
  split; [now apply columns_enrich_fresh|].
  rewrite get_col_enrich_other; [exact Hc|].
  unfold indicator_names. intros [E|[E|[E|[]]]]; discriminate.
Qed.

Lemma calculate_indicators_appends_witness :
  exists out data',
    calculate_indicators FillPad open_gap_table = (out, Ok data')
    /\ index data' = index open_gap_table
    /\ nrows data' = nrows open_gap_table
    /\ columns data'
       = columns open_gap_table
         ++ indicator_columns FillPad (map Some (flat_prices 51))
    /\ get_col "Close" data' = Some (map Some (flat_prices 51)).
Proof.
  apply (@calculate_indicators_appends FillPad open_gap_table
           (map Some (flat_prices 51))).
  - reflexivity.
  - intros name [<-|[<-|[<-|[]]]]; reflexivity.
Defined.

(** C9 as stated fails on a table that already has a column named
    [SMA_50]: the stage overwrites that pre-existing column and appends
    only two. *)
Lemma calculate_indicators_overwrites_stale_sma :
  get_col "SMA_50" stale_sma_table = Some [Some 7%R]
  /\ exists out data',
       calculate_indicators FillPad stale_sma_table = (out, Ok data')
       /\ get_col "SMA_50" data' = Some [None]
       /\ get_col "SMA_50" data' <> get_col "SMA_50" stale_sma_table
       /\ map fst (columns data')
          = ["Close"; "SMA_50"; "EMA_21"; "Volatility_50"]%string.
Proof.
  split; [reflexivity|].
  eexists. exists (enrich FillPad stale_sma_table [Some 1%R]).
  split; [apply calculate_indicators_ok; reflexivity|].
  assert (get_col "SMA_50" (enrich FillPad stale_sma_table [Some 1%R])
          = Some [None]) as Hsma by (rewrite get_col_enrich_SMA; reflexivity).
  split; [exact Hsma|].
  split; [rewrite Hsma; discriminate|].
  reflexivity.
Qed.

(** C5, as the code has it: when the provider returns an empty table,
    neither [calculate_indicators] nor [analyze_performance] runs (none
    of their lines and no table is printed), the message of the [else]
    branch names the requested instrument and refers to "the symbol and
    date range" without spelling the dates out (only the progress line
    printed before the download does), the program returns normally, and
    the elapsed time is the last line printed. *)
Theorem empty_download_reports_no_data
        (fill : fill_method)
        (yf_download : string -> string -> string -> outcome DataFrame)
        (format_2f : R -> string) (start_time end_time : R) (df : DataFrame) :
  yf_download ticker start end_ = Ok df ->
  empty df = true ->
  let run := main fill yf_download format_2f start_time end_time in
  run = ([Print "Fetching data for NVDA from 2020-01-01 to 2025-01-01...";
          Print "Data fetched successfully!";
          Print no_data_message;
          Print (nl ++ "Total execution time: "
                    ++ format_2f (end_time - start_time)%R ++ " seconds.")],
         Ok tt)
  /\ (forall e, In e stage_banners -> ~ In e (output_of run))
  /\ (forall shown, ~ In (PrintFrame shown) (output_of run))
  /\ contains ticker no_data_message = true
  /\ contains "date range" no_data_message = true
  /\ identifies_request
       "Fetching data for NVDA from 2020-01-01 to 2025-01-01..." = true.
Proof.
  intros Hdl Hempty run.
  assert (run
          = ([Print "Fetching data for NVDA from 2020-01-01 to 2025-01-01...";
              Print "Data fetched successfully!";
              Print no_data_message;
              Print (nl ++ "Total execution time: "
                        ++ format_2f (end_time - start_time)%R ++ " seconds.")],
             Ok tt)) as Hrun.
  { subst run. unfold main, fetch_data. rewrite Hdl.
    cbn [bind lift print ret app]. rewrite Hempty.
    cbn [negb bind print app]. reflexivity. }
  split; [exact Hrun|].
  rewrite Hrun. unfold output_of. cbn [fst].
  split.
  { intros e [<-|[<-|[]]] [E|[E|[E|[E|[]]]]];
      try discriminate E; simpl in E; discriminate E. }
  split.
  { intros shown [E|[E|[E|[E|[]]]]]; discriminate E. }
  split; [reflexivity|]. split; reflexivity.
Qed.

Lemma empty_download_reports_no_data_witness :
  let run := main FillPad no_observations two_decimals 0 1 in
  run = ([Print "Fetching data for NVDA from 2020-01-01 to 2025-01-01...";
          Print "Data fetched successfully!";
          Print no_data_message;
          Print (nl ++ "Total execution time: "
                    ++ two_decimals (1 - 0)%R ++ " seconds.")],
         Ok tt)
  /\ (forall e, In e stage_banners -> ~ In e (output_of run))
  /\ (forall shown, ~ In (PrintFrame shown) (output_of run))
  /\ contains ticker no_data_message = true
  /\ contains "date range" no_data_message = true
  /\ identifies_request
       "Fetching data for NVDA from 2020-01-01 to 2025-01-01..." = true.
Proof.
  apply (@empty_download_reports_no_data FillPad no_observations two_decimals
           0%R 1%R (mkFrame [] [])).
  - reflexivity.
  - reflexivity.
Defined.

(** C5 as stated fails: in a run on an empty download the "no data"
    message does not identify the date range, it contains neither the
    start nor the end date; the only printed line that spells out the
    request is the progress line that precedes the download. *)
Lemma no_data_message_omits_dates :
  let run := main FillPad no_observations two_decimals 0 1 in
  nth_error (output_of run) 2 = Some (Print no_data_message)
  /\ contains start no_data_message = false
  /\ contains end_ no_data_message = false
  /\ identifies_request no_data_message = false
  /\ (forall line, In (Print line) (output_of run) ->
        identifies_request line = true ->
        nth_error (output_of run) 0 = Some (Print line)).
Proof.
  cbv zeta.
  split; [reflexivity|]. split; [reflexivity|]. split; [reflexivity|].
  split; [reflexivity|].
  intros line Hin Hid.
  assert (output_of (main FillPad no_observations two_decimals 0 1)
          = [Print "Fetching data for NVDA from 2020-01-01 to 2025-01-01...";
             Print "Data fetched successfully!";
             Print no_data_message;
             Print (nl ++ "Total execution time: 0.00 seconds.")]) as Hout
      by reflexivity.
  rewrite Hout in *.
  destruct Hin as [E|[E|[E|[E|[]]]]]; injection E as <-.
  - reflexivity.
  - discriminate Hid.
  - discriminate Hid.
  - discriminate Hid.
Qed.

(** * Further properties of the program *)

(** ** The main block *)

Lemma main_after_fetch (fill : fill_method)
      (yf_download : string -> string -> string -> outcome DataFrame)
      (format_2f : R -> string) (start_time end_time : R) (df : DataFrame) :
  yf_download ticker start end_ = Ok df ->
  main fill yf_download format_2f start_time end_time
  = bind (bind (print fetch_banner) (fun _ => print "Data fetched successfully!"))
         (fun _ =>
            bind (if negb (empty df)
                  then bind (calculate_indicators fill df)
                            (fun d => analyze_performance d)
                  else print no_data_message)
                 (fun _ => print (time_line format_2f start_time end_time))).
Proof.
  intros Hdl. unfold main, fetch_data. rewrite Hdl.
  cbn [bind lift print ret app].
  destruct (negb (empty df)); [|reflexivity].
  destruct (calculate_indicators fill df) as [out [d|e]]; [|reflexivity].
  cbn [bind]. destruct (analyze_performance d) as [out' [u|e]]; reflexivity.
Qed.

(** On a non-empty download with a [Close] column the run prints, in this
    order, the two fetch lines, the two lines of the indicator stage, the
    three outputs of the analysis (the shown table being the last five
    complete rows of the enriched table) and the elapsed time, and it
    returns normally. *)
Theorem main_full_run (fill : fill_method)
        (yf_download : string -> string -> string -> outcome DataFrame)
        (format_2f : R -> string) (start_time end_time : R) (df : DataFrame)
        (close : Series) :
  yf_download ticker start end_ = Ok df ->
  empty df = false ->
  get_col "Close" df = Some close ->
  main fill yf_download format_2f start_time end_time
  = ([Print fetch_banner;
      Print "Data fetched successfully!";
      Print "Calculating financial indicators...";
      Print "Indicators calculated."]
       ++ analysis_output (tail 5 (dropna (enrich fill df close)))
       ++ [Print (time_line format_2f start_time end_time)],
     Ok tt).
Proof.
  intros Hdl Hne Hc. rewrite (main_after_fetch fill _ _ _ _ Hdl).
  rewrite Hne. cbn [negb]. rewrite (calculate_indicators_ok fill df Hc).
  reflexivity.
Qed.

Lemma main_full_run_witness :
  main FillPad (flat_download 60) two_decimals 0 1
  = ([Print fetch_banner;
      Print "Data fetched successfully!";
      Print "Calculating financial indicators...";
      Print "Indicators calculated."]
       ++ analysis_output
            (tail 5 (dropna (enrich FillPad (flat_table 60)
                               (map Some (flat_prices 60)))))
       ++ [Print (time_line two_decimals 0 1)],
     Ok tt).
Proof.
  apply (@main_full_run FillPad (flat_download 60) two_decimals 0%R 1%R
           (flat_table 60) (map Some (flat_prices 60))).
  - reflexivity.
  - reflexivity.
  - reflexivity.
Defined.

(** A non-empty download without a [Close] column makes the run stop with
    [KeyError('Close')] right after the banner of the indicator stage:
    neither the analysis nor the elapsed time is printed. *)
Theorem main_key_error_skips_timing (fill : fill_method)
        (yf_download : string -> string -> string -> outcome DataFrame)
        (format_2f : R -> string) (start_time end_time : R) (df : DataFrame) :
  yf_download ticker start end_ = Ok df ->
  empty df = false ->
  get_col "Close" df = None ->
  main fill yf_download format_2f start_time end_time
  = ([Print fetch_banner;
      Print "Data fetched successfully!";
      Print "Calculating financial indicators..."],
     Raise (KeyError "Close")).
Proof.
  intros Hdl Hne Hc. rewrite (main_after_fetch fill _ _ _ _ Hdl).
  rewrite Hne. cbn [negb]. rewrite (calculate_indicators_no_close fill df Hc).
  reflexivity.
Qed.

Lemma main_key_error_skips_timing_witness :
  main FillPad no_close_download two_decimals 0 1
  = ([Print fetch_banner;
      Print "Data fetched successfully!";
      Print "Calculating financial indicators..."],
     Raise (KeyError "Close")).
Proof.
  apply (@main_key_error_skips_timing FillPad no_close_download two_decimals
           0%R 1%R no_close_table).
  - reflexivity.
  - reflexivity.
  - reflexivity.
Defined.

(** When the provider call raises, the exception leaves [fetch_data] and
    the main block: only the first fetch line has been printed, not
    "Data fetched successfully!" and not the elapsed time. *)
Theorem main_download_error_propagates (fill : fill_method)
        (yf_download : string -> string -> string -> outcome DataFrame)
        (format_2f : R -> string) (start_time end_time : R) (e : exn) :
  yf_download ticker start end_ = Raise e ->
  fetch_data yf_download ticker start end_ = ([Print fetch_banner], Raise e)
  /\ main fill yf_download format_2f start_time end_time
     = ([Print fetch_banner], Raise e).
Proof.
  intros Hdl. unfold main, fetch_data. rewrite Hdl. split; reflexivity.
Qed.

Lemma main_download_error_propagates_witness :
  fetch_data failing_download ticker start end_
  = ([Print fetch_banner], Raise (DownloadError "connection refused"))
  /\ main FillPad failing_download two_decimals 0 1
     = ([Print fetch_banner], Raise (DownloadError "connection refused")).
Proof.
  apply (@main_download_error_propagates FillPad failing_download two_decimals
           0%R 1%R (DownloadError "connection refused")).
  reflexivity.
Defined.

(** The run returns normally exactly when the download returns a table
    that is empty or has a [Close] column; it prints the elapsed time,
    as its last line, exactly in those runs. *)
Theorem main_returns_iff (fill : fill_method)
        (yf_download : string -> string -> string -> outcome DataFrame)
        (format_2f : R -> string) (start_time end_time : R) :
  let run := main fill yf_download format_2f start_time end_time in
  let timing := Print (time_line format_2f start_time end_time) in
  (result_of run = Some tt
   <-> exists df, yf_download ticker start end_ = Ok df
                  /\ (empty df = true \/ has_col "Close" df = true))
  /\ (result_of run = Some tt -> last (output_of run) (Print "") = timing)
  /\ (result_of run = None -> ~ In timing (output_of run)).
Proof.
  cbv zeta.
  destruct (yf_download ticker start end_) as [df|e] eqn:Hdl.
  - destruct (empty df) eqn:Hempty.
    + assert (main fill yf_download format_2f start_time end_time
              = ([Print fetch_banner; Print "Data fetched successfully!";
                  Print no_data_message;
                  Print (time_line format_2f start_time end_time)], Ok tt))
        as -> by (rewrite (main_after_fetch fill _ _ _ _ Hdl), Hempty;
                  reflexivity).
      split; [|split].
      * split; [intros _; exists df; auto | reflexivity].
      * reflexivity.
      * discriminate.
    + destruct (get_col "Close" df) as [close|] eqn:Hc.
      * assert (main fill yf_download format_2f start_time end_time
                = ([Print fetch_banner; Print "Data fetched successfully!";
                    Print "Calculating financial indicators...";
                    Print "Indicators calculated."]
                     ++ analysis_output (tail 5 (dropna (enrich fill df close)))
                     ++ [Print (time_line format_2f start_time end_time)],
                   Ok tt)) as ->
            by (rewrite (main_after_fetch fill _ _ _ _ Hdl), Hempty;
                cbn [negb]; rewrite (calculate_indicators_ok fill df Hc);
                reflexivity).
        split; [|split].
        -- split; [intros _; exists df; split; [reflexivity|]
                  | reflexivity].
           right. destruct (has_col "Close" df) eqn:Hhas; [reflexivity|].
           apply has_col_get_col in Hhas. congruence.
        -- reflexivity.
        -- discriminate.
      * assert (main fill yf_download format_2f start_time end_time
                = ([Print fetch_banner; Print "Data fetched successfully!";
                    Print "Calculating financial indicators..."],
                   Raise (KeyError "Close"))) as ->
            by (rewrite (main_after_fetch fill _ _ _ _ Hdl), Hempty;
                cbn [negb];
                rewrite (calculate_indicators_no_close fill df Hc);
                reflexivity).
        split; [|split].
        -- split; [discriminate|].
           intros [df' [Hdf' [He|Hh]]]; injection Hdf' as <-.
           ++ congruence.
           ++ apply has_col_get_col in Hc. congruence.
        -- discriminate.
        -- intros _ [E|[E|[E|[]]]]; discriminate E.
  - assert (main fill yf_download format_2f start_time end_time
            = ([Print fetch_banner], Raise e)) as ->
        by (unfold main, fetch_data; rewrite Hdl; reflexivity).
    split; [|split].
    + split; [discriminate | intros [df [Hdf _]]; discriminate].
    + discriminate.
    + intros _ [E|[]]. discriminate E.
Qed.

(** ** The indicator stage on arbitrary tables *)

Lemma ewm_loop_length (alpha : R) (vals : list cell) :
  forall weighted old_wt, length (ewm_loop alpha weighted old_wt vals) = length vals.
Proof.
  induction vals as [|cur rest IH]; intros weighted old_wt; [reflexivity|].
  cbn [ewm_loop]. destruct weighted as [w|].
  - destruct cur as [c|]; cbn [length]; now rewrite IH.
  - cbn [length]. now rewrite IH.
Qed.

Lemma ewm_mean_length (com : R) (s : Series) :
  length (ewm_mean com s) = length s.
Proof.
  destruct s as [|v0 rest]; [reflexivity|].
  unfold ewm_mean. cbn [length]. now rewrite ewm_loop_length.
Qed.

Lemma names_setitem (df : DataFrame) (name : string) (s : Series) :
  map fst (columns (setitem df name s))
  = map fst (columns df) ++ (if has_col name df then [] else [name]).
Proof.
  unfold setitem. cbn [columns]. destruct (has_col name df).
  - rewrite app_nil_r, map_map. apply map_ext. intros c.
    destruct (String.eqb name (fst c)); reflexivity.
  - rewrite map_app. reflexivity.
Qed.

Lemma names_enrich (fill : fill_method) (data : DataFrame) (close : Series) :
  map fst (columns (enrich fill data close))
  = map fst (columns data)
    ++ filter (fun name => negb (has_col name data)) indicator_names.
Proof.
  unfold enrich, indicator_columns, indicator_names.
  cbn [fold_left fst snd filter].
  rewrite !names_setitem.
  rewrite !has_col_setitem_other by discriminate.
  rewrite <- !app_assoc. f_equal.
  destruct (has_col "SMA_50" data), (has_col "EMA_21" data),
    (has_col "Volatility_50" data); reflexivity.
Qed.

(** The stage raises exactly when the table has no [Close] column, and
    then it raises [KeyError('Close')] after its first line only. *)
Theorem calculate_indicators_raises_iff (fill : fill_method) (data : DataFrame) :
  (result_of (calculate_indicators fill data) = None
   <-> has_col "Close" data = false)
  /\ (has_col "Close" data = false ->
      calculate_indicators fill data
      = ([Print "Calculating financial indicators..."],
         Raise (KeyError "Close")))
  /\ (has_col "Close" data = true ->
      exists data',
        calculate_indicators fill data
        = ([Print "Calculating financial indicators...";
            Print "Indicators calculated."], Ok data')).
Proof.
  destruct (get_col "Close" data) as [close|] eqn:Hc.
  - assert (has_col "Close" data = true) as Hhas.
    { destruct (has_col "Close" data) eqn:H; [reflexivity|].
      apply has_col_get_col in H. congruence. }
    rewrite (calculate_indicators_ok fill data Hc), Hhas.
    split; [split; discriminate|].
    split; [discriminate|]. intros _. now exists (enrich fill data close).
  - assert (has_col "Close" data = false) as Hhas by now apply has_col_get_col.
    rewrite (calculate_indicators_no_close fill data Hc), Hhas.
    split; [split; reflexivity|].
    split; [reflexivity | discriminate].
Qed.

(** After the stage, on any table with a [Close] column (also one that
    already carries indicator-named columns): each indicator name looks
    up the column computed from [Close], every other name looks up what
    it did before, the row index is the same, and the column names are
    the old ones in their order followed by the indicator names that
    were not there yet. *)
Theorem calculate_indicators_lookup (fill : fill_method) (data : DataFrame)
        (close : Series) :
  get_col "Close" data = Some close ->
  exists out data',
    calculate_indicators fill data = (out, Ok data')
    /\ get_col "SMA_50" data' = Some (rolling_mean 50 close)
    /\ get_col "EMA_21" data' = Some (ewm_mean 21 close)
    /\ get_col "Volatility_50" data'
       = Some (rolling_std 50 (prep_values (pct_change fill close)))
    /\ (forall name, ~ In name indicator_names ->
          get_col name data' = get_col name data)
    /\ index data' = index data
    /\ map fst (columns data')
       = map fst (columns data)
         ++ filter (fun name => negb (has_col name data)) indicator_names.
Proof.
  intros Hc. eexists. exists (enrich fill data close).
  split; [apply (calculate_indicators_ok fill data Hc)|].
  split; [apply get_col_enrich_SMA|].
  split; [apply get_col_enrich_EMA|].
  split; [apply get_col_enrich_Vol|].
  split; [intros name Hname; now apply get_col_enrich_other|].
  split; [reflexivity | apply names_enrich].
Qed.

Lemma calculate_indicators_lookup_witness :
  exists out data',
    calculate_indicators FillPad stale_sma_table = (out, Ok data')
    /\ get_col "SMA_50" data' = Some (rolling_mean 50 [Some 1%R])
    /\ get_col "EMA_21" data' = Some (ewm_mean 21 [Some 1%R])
    /\ get_col "Volatility_50" data'
       = Some (rolling_std 50 (prep_values (pct_change FillPad [Some 1%R])))
    /\ (forall name, ~ In name indicator_names ->
          get_col name data' = get_col name stale_sma_table)
    /\ index data' = index stale_sma_table
    /\ map fst (columns data')
       = map fst (columns stale_sma_table)
         ++ filter (fun name => negb (has_col name stale_sma_table))
                   indicator_names.
Proof.
  apply (@calculate_indicators_lookup FillPad stale_sma_table [Some 1%R]).
  reflexivity.
Defined.

Lemma well_formed_setitem (df : DataFrame) (name : string) (s : Series) :
  well_formed df -> length s = nrows df -> well_formed (setitem df name s).
Proof.
  intros Hwf Hlen. unfold well_formed in *. rewrite Forall_forall in *.
  intros c Hin. apply In_setitem in Hin.
  change (nrows (setitem df name s)) with (nrows df).
  destruct Hin as [->|[Hin _]]; [exact Hlen | now apply Hwf].
Qed.

(** The stage keeps the table rectangular: when every column of the
    input has one cell per row, so has every column of the output, the
    three computed ones included. *)
Theorem calculate_indicators_well_formed (fill : fill_method)
        (data : DataFrame) (close : Series) :
  well_formed data ->
  get_col "Close" data = Some close ->
  exists out data',
    calculate_indicators fill data = (out, Ok data')
    /\ well_formed data'
    /\ nrows data' = nrows data
    /\ forall name s, In name indicator_names ->
         get_col name data' = Some s -> length s = nrows data.
Proof.
  intros Hwf Hc.
  pose proof (@well_formed_col data "Close" close Hwf Hc) as Hlen.
  assert (well_formed (enrich fill data close)) as Hwf'.
  { unfold enrich, indicator_columns. cbn [fold_left fst snd].
    repeat apply well_formed_setitem; try assumption.
    - unfold rolling_mean. now rewrite rolling_length.
    - now rewrite ewm_mean_length.
    - rewrite rolling_std_length by lia. unfold prep_values.
      now rewrite length_map, pct_change_length. }
  eexists. exists (enrich fill data close).
  split; [apply (calculate_indicators_ok fill data Hc)|].
  split; [exact Hwf'|]. split; [reflexivity|].
  intros name s _ Hs.
  apply (@well_formed_col (enrich fill data close) name s Hwf' Hs).
Qed.

Lemma calculate_indicators_well_formed_witness :
  exists out data',
    calculate_indicators FillPad rising_table = (out, Ok data')
    /\ well_formed data'
    /\ nrows data' = nrows rising_table
    /\ forall name s, In name indicator_names ->
         get_col name data' = Some s -> length s = nrows rising_table.
Proof.
  apply (@calculate_indicators_well_formed FillPad rising_table
           (map Some rising_prices)).
  - unfold well_formed, rising_table. cbn [columns].
    constructor; [reflexivity | constructor].
  - reflexivity.
Defined.

(** A table holds [s] under [name]: the column exists and every column
    of that name is [s]. *)
Lemma setitem_holds (df : DataFrame) (name : string) (s : Series) :
  has_col name (setitem df name s) = true
  /\ forall c, In c (columns (setitem df name s)) -> fst c = name -> snd c = s.
Proof.
  split.
  - destruct (has_col name (setitem df name s)) eqn:H; [reflexivity|].
    apply has_col_get_col in H. rewrite get_col_setitem_same in H. discriminate.
  - intros c Hin Hname. apply In_setitem in Hin.
    destruct Hin as [->|[_ Hne]]; [reflexivity | contradiction].
Qed.

Lemma holds_setitem_other (df : DataFrame) (name name' : string)
      (s s' : Series) :
  name <> name' ->
  (has_col name df = true
   /\ forall c, In c (columns df) -> fst c = name -> snd c = s) ->
  has_col name (setitem df name' s') = true
  /\ forall c, In c (columns (setitem df name' s')) -> fst c = name -> snd c = s.
Proof.
  intros Hne [Hhas Hall]. split.
  - now rewrite has_col_setitem_other.
  - intros c Hin Hname. apply In_setitem in Hin.
    destruct Hin as [->|[Hin _]]; [cbn [fst] in Hname; congruence|].
    now apply Hall.
Qed.

(** Assigning the value a column already holds changes nothing. *)
Lemma setitem_same_value (df : DataFrame) (name : string) (s : Series) :
  has_col name df = true ->
  (forall c, In c (columns df) -> fst c = name -> snd c = s) ->
  setitem df name s = df.
Proof.
  intros Hhas Hall. unfold setitem. rewrite Hhas.
  destruct df as [idx cols]. cbn [index columns] in *. f_equal.
  rewrite <- (map_id cols) at 2. apply map_ext_in. intros c Hin.
  destruct (String.eqb_spec name (fst c)) as [E|_]; [|reflexivity].
  rewrite <- (Hall c Hin (eq_sym E)). now destruct c.
Qed.

Lemma enrich_idempotent (fill : fill_method) (data : DataFrame) (close : Series) :
  enrich fill (enrich fill data close) close = enrich fill data close.
Proof.
  set (d3 := enrich fill data close).
  assert (forall name s, In (name, s) (indicator_columns fill close) ->
            has_col name d3 = true
            /\ forall c, In c (columns d3) -> fst c = name -> snd c = s) as H.
  { intros name s Hin. subst d3. unfold enrich, indicator_columns in *.
    cbn [fold_left fst snd].
    destruct Hin as [E|[E|[E|[]]]]; injection E as <- <-.
    - apply holds_setitem_other; [discriminate|].
      apply holds_setitem_other; [discriminate|]. apply setitem_holds.
    - apply holds_setitem_other; [discriminate|]. apply setitem_holds.
    - apply setitem_holds. }
  unfold indicator_columns in H.
  destruct (H _ _ (or_introl eq_refl)) as [S1 S2].
  destruct (H _ _ (or_intror (or_introl eq_refl))) as [E1 E2].
  destruct (H _ _ (or_intror (or_intror (or_introl eq_refl)))) as [V1 V2].
  unfold enrich at 1. unfold indicator_columns. cbn [fold_left fst snd].
  rewrite (@setitem_same_value d3 "SMA_50" _ S1 S2).
  rewrite (@setitem_same_value d3 "EMA_21" _ E1 E2).
  apply (@setitem_same_value d3 "Volatility_50" _ V1 V2).
Qed.

(** Running the stage on its own result changes nothing more: the second
    run succeeds and returns the table of the first. *)
Theorem calculate_indicators_idempotent (fill : fill_method)
        (data : DataFrame) (close : Series) :
  get_col "Close" data = Some close ->
  exists out data',
    calculate_indicators fill data = (out, Ok data')
    /\ calculate_indicators fill data' = (out, Ok data').
Proof.
  intros Hc. eexists. exists (enrich fill data close).
  split; [apply (calculate_indicators_ok fill data Hc)|].
  assert (get_col "Close" (enrich fill data close) = Some close) as Hc'.
  { rewrite get_col_enrich_other; [exact Hc|].
    unfold indicator_names. intros [E|[E|[E|[]]]]; discriminate. }
  rewrite (calculate_indicators_ok fill _ Hc'), enrich_idempotent.
  reflexivity.
Qed.

Lemma calculate_indicators_idempotent_witness :
  exists out data',
    calculate_indicators FillPad open_gap_table = (out, Ok data')
    /\ calculate_indicators FillPad data' = (out, Ok data').
Proof.
  apply (@calculate_indicators_idempotent FillPad open_gap_table
           (map Some (flat_prices 51))).
  reflexivity.
Defined.

(** When no closing price is missing, the release-dependent fill default
    of [pct_change] does not matter: both conventions give the same
    output and the same table. *)
Theorem calculate_indicators_fill_irrelevant (data : DataFrame) (C : list R) :
  get_col "Close" data = Some (map Some C) ->
  calculate_indicators FillPad data = calculate_indicators FillNone data.
Proof.
  intros Hc.
  rewrite (calculate_indicators_ok FillPad data Hc).
  rewrite (calculate_indicators_ok FillNone data Hc).
  unfold enrich, indicator_columns. cbn [fold_left fst snd].
  now rewrite !pct_change_present.
Qed.

Lemma calculate_indicators_fill_irrelevant_witness :
  calculate_indicators FillPad rising_table
  = calculate_indicators FillNone rising_table.
Proof.
  apply (@calculate_indicators_fill_irrelevant rising_table rising_prices).
  reflexivity.
Defined.

(** ** The report *)

Lemma take_rows_cells (rows : list nat) (df : DataFrame) (c : string * Series) :
  In c (columns (take_rows rows df)) ->
  exists c0, In c0 (columns df)
             /\ fst c = fst c0
             /\ snd c = map (fun i => nth i (snd c0) None) rows.
Proof.
  unfold take_rows. cbn [columns]. intros Hin. apply in_map_iff in Hin.
  destruct Hin as [c0 [<- Hin]]. now exists c0.
Qed.

(** Whatever table it is given, [analyze_performance] returns normally
    and shows a table of at most five rows with the columns of its input
    and without a single missing cell. *)
Theorem analyze_performance_shows_complete_rows (df : DataFrame) :
  exists shown,
    analyze_performance df = (analysis_output shown, Ok tt)
    /\ nrows shown = Nat.min 5 (nrows (dropna df))
    /\ nrows shown <= 5
    /\ map fst (columns shown) = map fst (columns df)
    /\ well_formed shown
    /\ forall c x, In c (columns shown) -> In x (snd c) -> notna x = true.
Proof.
  exists (tail 5 (dropna df)).
  assert (tail 5 (dropna df)
          = take_rows (skipn (length (kept_rows df) - 5) (kept_rows df)) df)
    as Hshown by (unfold dropna; apply tail_take_rows).
  split; [apply analyze_performance_total|].
  rewrite Hshown, nrows_dropna, nrows_take_rows, length_skipn.
  split; [lia|]. split; [lia|].
  split.
  { unfold take_rows. cbn [columns]. rewrite map_map. reflexivity. }
  split.
  { unfold well_formed. apply Forall_forall. intros c Hin.
    apply take_rows_cells in Hin. destruct Hin as [c0 [_ [_ Hcells]]].
    rewrite nrows_take_rows.
    etransitivity; [exact (f_equal (@length cell) Hcells) | apply length_map]. }
  intros c x Hin Hx. apply take_rows_cells in Hin.
  destruct Hin as [c0 [Hin0 [_ Hcells]]]. rewrite Hcells in Hx.
  apply in_map_iff in Hx. destruct Hx as [i [<- Hi]].
  apply In_skipn, kept_rows_spec in Hi. destruct Hi as [_ Hrow].
  rewrite row_complete_spec in Hrow. now apply Hrow.
Qed.

Lemma map_nth_seq_all (A : Type) (d : A) (l : list A) :
  map (fun i => nth i l d) (seq 0 (length l)) = l.
Proof.
  transitivity (skipn 0 (firstn (length l) l)); [|apply firstn_all].
  rewrite (@slice_seq A d l 0 (length l)) by lia.
  now rewrite Nat.sub_0_r.
Qed.

Lemma take_rows_all (rows : list nat) (df : DataFrame) :
  take_rows (seq 0 (length rows)) (take_rows rows df) = take_rows rows df.
Proof.
  unfold take_rows. cbn [index columns]. f_equal.
  - rewrite <- (length_map (fun i => nth i (index df) 0%Z) rows) at 1.
    apply map_nth_seq_all.
  - rewrite map_map.
    apply map_ext. intros c. cbn [fst snd]. f_equal.
    rewrite <- (length_map (fun i => nth i (snd c) None) rows) at 1.
    apply map_nth_seq_all.
Qed.

Lemma nth_map_default (A B : Type) (f : A -> B) (l : list A) (i : nat)
      (d : B) (d' : A) :
  i < length l -> nth i (map f l) d = f (nth i l d').
Proof.
  intros Hi. rewrite (nth_indep (map f l) d (f d')) by now rewrite length_map.
  apply map_nth.
Qed.

Lemma kept_rows_dropna (df : DataFrame) :
  kept_rows (dropna df) = seq 0 (length (kept_rows df)).
Proof.
  unfold kept_rows at 1. rewrite nrows_dropna.
  apply filter_seq_all. intros i Hi.
  apply row_complete_spec. intros c Hin.
  apply take_rows_cells in Hin. destruct Hin as [c0 [Hin0 [_ Hcells]]].
  assert (In (nth i (kept_rows df) 0) (kept_rows df)) as Hk
      by (apply nth_In; lia).
  assert (nth i (snd c) None = nth (nth i (kept_rows df) 0) (snd c0) None) as E.
  { etransitivity; [exact (f_equal (fun l => nth i l None) Hcells)|].
    apply (@nth_map_default nat cell (fun r => nth r (snd c0) None)
             (kept_rows df) i None 0). lia. }
  apply (eq_trans (f_equal notna E)).
  apply kept_rows_spec in Hk. destruct Hk as [_ Hrow].
  rewrite row_complete_spec in Hrow. now apply Hrow.
Qed.

(** Filtering twice is filtering once; the filtered table has no missing
    cell left and keeps the surviving rows in their original order. *)
Theorem dropna_idempotent (df : DataFrame) :
  dropna (dropna df) = dropna df
  /\ (forall c x, In c (columns (dropna df)) -> In x (snd c) -> notna x = true)
  /\ index (dropna df) = map (fun i => nth i (index df) 0%Z) (kept_rows df)
  /\ StronglySorted lt (kept_rows df).
Proof.
  split; [|split; [|split]].
  - unfold dropna at 1. rewrite kept_rows_dropna. unfold dropna.
    apply take_rows_all.
  - intros c x Hin Hx. apply take_rows_cells in Hin.
    destruct Hin as [c0 [Hin0 [_ Hcells]]]. rewrite Hcells in Hx.
    apply in_map_iff in Hx. destruct Hx as [i [<- Hi]].
    apply kept_rows_spec in Hi. destruct Hi as [_ Hrow].
    rewrite row_complete_spec in Hrow. now apply Hrow.
  - reflexivity.
  - unfold kept_rows. generalize 0 as a. generalize (nrows df) as m.
    induction m as [|m IH]; intros a; [constructor|].
    cbn [seq filter]. destruct (row_complete df a); [|apply IH].
    constructor; [apply IH|].
    apply Forall_forall. intros j Hj. apply filter_In in Hj.
    destruct Hj as [Hj _]. apply in_seq in Hj. lia.
Qed.

(** ** Gaps and zero prices *)

Lemma valid_length_lt (w : list cell) :
  In None w -> length (valid w) < length w.
Proof.
  induction w as [|[x|] w IH]; intros Hin.
  - destruct Hin.
  - destruct Hin as [E|Hin]; [discriminate|].
    simpl. specialize (IH Hin). lia.
  - simpl. pose proof (valid_length_le w). lia.
Qed.

Lemma window_length_le (w : nat) (s : Series) (i : nat) :
  length (window w s i) <= w.
Proof.
  unfold window. rewrite length_skipn, length_firstn. lia.
Qed.

Lemma window_In (w : nat) (s : Series) (i j : nat) (c : cell) :
  nth_error s j = Some c -> S i - w <= j -> j <= i -> In c (window w s i).
Proof.
  intros Hj Hlo Hhi. unfold window.
  apply (@nth_error_In _ _ (j - (S i - w))).
  rewrite nth_error_skipn, nth_error_firstn.
  replace (S i - w + (j - (S i - w))) with j by lia.
  destruct (Nat.ltb_spec j (S i)); [exact Hj | lia].
Qed.

(** A missing cell blanks every rolling aggregate whose window holds it. *)
Lemma rolling_gap (w : nat) (agg : list R -> cell) (s : Series) (i j : nat) :
  nth_error s j = Some None -> S i - w <= j -> j <= i -> i < length s ->
  nth_error (rolling w agg s) i = Some None.
Proof.
  intros Hj Hlo Hhi Hi. apply rolling_short; [assumption|].
  pose proof (@valid_length_lt (window w s i)
                (@window_In w s i j None Hj Hlo Hhi)) as Hlt.
  pose proof (window_length_le w s i) as Hle.
  eapply Nat.lt_le_trans; [exact Hlt | exact Hle].
Qed.

(** A missing closing price at row [j] leaves [SMA_50] undefined on the
    rows [j .. j+49]: each of their windows holds fewer than 50
    observations. *)
Theorem missing_close_blanks_sma (fill : fill_method) (data : DataFrame)
        (close : Series) (j i : nat) :
  get_col "Close" data = Some close ->
  nth_error close j = Some None ->
  j <= i -> i <= j + 49 -> i < length close ->
  exists sma,
    indicator_column fill data "SMA_50" = Some sma
    /\ nth_error sma i = Some None.
Proof.
  intros Hc Hj Hlo Hhi Hi. exists (rolling_mean 50 close).
  rewrite (indicator_column_enrich fill data "SMA_50" Hc).
  split; [apply get_col_enrich_SMA|].
  unfold rolling_mean. apply (@rolling_gap 50 _ close i j); try assumption. lia.
Qed.

Lemma missing_close_blanks_sma_witness :
  exists sma,
    indicator_column FillPad gap_close_table "SMA_50" = Some sma
    /\ nth_error sma 54 = Some None.
Proof.
  apply (@missing_close_blanks_sma FillPad gap_close_table gap_close 5 54).
  - reflexivity.
  - reflexivity.
  - lia.
  - lia.
  - unfold gap_close. rewrite length_app. cbn [length].
    rewrite !length_map, !length_flat_prices. lia.
Defined.

Lemma pct_zero_denominator (c : R) :
  prep_value (pct (Some c) (Some 0%R)) = None.
Proof.
  unfold pct. destruct (Req_dec_T 0 0) as [_|E]; [|contradiction].
  destruct (Req_dec_T c 0); reflexivity.
Qed.

(** A closing price of zero at row [j] makes the return of row [j+1]
    infinite or NaN, not an exception, and leaves [Volatility_50]
    undefined on the rows [j+1 .. j+50]. *)
Theorem zero_price_blanks_volatility (fill : fill_method) (data : DataFrame)
        (C : list R) (j i : nat) :
  get_col "Close" data = Some (map Some C) ->
  nth j C 1%R = 0%R ->
  j + 1 <= i -> i <= j + 50 -> i < length C ->
  exists vol,
    indicator_column fill data "Volatility_50" = Some vol
    /\ (nth_error (pct_change fill (map Some C)) (j + 1) = Some FInf
        \/ nth_error (pct_change fill (map Some C)) (j + 1) = Some FNaN)
    /\ nth_error vol i = Some None.
Proof.
  intros Hc Hzero Hlo Hhi Hi.
  exists (rolling_std 50 (returns_of fill (map Some C))).
  rewrite (indicator_column_enrich fill data "Volatility_50" Hc).
  split; [apply get_col_enrich_Vol|].
  assert (nth_error (pct_change fill (map Some C)) (j + 1)
          = Some (pct (Some (nth (S j) C 0%R)) (Some 0%R))) as Hret.
  { rewrite pct_change_present. replace (j + 1) with (S j) by lia.
    rewrite nth_error_zip_shift, !nth_error_map.
    rewrite (nth_error_nth' C 0%R) by lia.
    rewrite (nth_error_nth' C 1%R) by lia.
    cbn [option_map]. now rewrite Hzero. }
  split.
  { rewrite Hret. unfold pct.
    destruct (Req_dec_T 0 0) as [_|E]; [|contradiction].
    destruct (Req_dec_T (nth (S j) C 0%R) 0); [right | left]; reflexivity. }
  rewrite rolling_std_exact by lia. unfold rolling_std_two_pass.
  apply (@rolling_gap 50 _ (returns_of fill (map Some C)) i (j + 1)).
  - unfold returns_of, prep_values. rewrite nth_error_map, Hret.
    cbn [option_map]. now rewrite pct_zero_denominator.
  - lia.
  - lia.
  - now rewrite returns_length, length_map.
Qed.

Lemma zero_price_blanks_volatility_witness :
  exists vol,
    indicator_column FillPad zero_price_table "Volatility_50" = Some vol
    /\ (nth_error (pct_change FillPad (map Some zero_prices)) (5 + 1)
        = Some FInf
        \/ nth_error (pct_change FillPad (map Some zero_prices)) (5 + 1)
           = Some FNaN)
    /\ nth_error vol 55 = Some None.
Proof.
  apply (@zero_price_blanks_volatility FillPad zero_price_table zero_prices
           5 55).
  - reflexivity.
  - reflexivity.
  - lia.
  - lia.
  - unfold zero_prices. rewrite length_app. cbn [length].
    rewrite !length_flat_prices. lia.
Defined.

(** ** Shifted quotients *)

Lemma zip_shift_removelast (d : Series) :
  zip_with pct d (shift1 d) = zip_with pct d (None :: d).
Proof.
  destruct d as [|a d]; [reflexivity|].
  unfold shift1. apply zip_with_removelast.
Qed.

(** ** Gaps in the exponentially weighted mean *)

Lemma ewm_loop_defined (alpha : R) (vals : list cell) :
  forall weighted old_wt k,
    k < length vals ->
    option_map notna (nth_error (ewm_loop alpha weighted old_wt vals) k)
    = Some (notna weighted || existsb notna (firstn (S k) vals)).
Proof.
  induction vals as [|cur rest IH]; intros weighted old_wt k Hk;
    [simpl in Hk; lia|].
  cbn [ewm_loop]. destruct weighted as [w|].
  - destruct cur as [c|]; destruct k as [|k]; try reflexivity.
    + cbn [nth_error]. rewrite IH by (simpl in Hk; lia). reflexivity.
    + cbn [nth_error]. rewrite IH by (simpl in Hk; lia). reflexivity.
  - destruct k as [|k].
    + cbn [nth_error option_map firstn existsb]. now rewrite orb_false_r.
    + cbn [nth_error]. rewrite IH by (simpl in Hk; lia).
      rewrite firstn_cons. reflexivity.
Qed.

(** [EMA_21] has no warm-up, but it does wait for a first price: its
    cell at row [i] is defined exactly when some closing price at a row
    [<= i] is present, and from then on it stays defined across later
    gaps. *)
Theorem ema_defined_from_first_price (fill : fill_method) (data : DataFrame)
        (close : Series) :
  get_col "Close" data = Some close ->
  exists ema,
    indicator_column fill data "EMA_21" = Some ema
    /\ length ema = length close
    /\ forall i, i < length close ->
         option_map notna (nth_error ema i)
         = Some (existsb notna (firstn (S i) close)).
Proof.
  intros Hc. exists (ewm_mean 21 close).
  rewrite (indicator_column_enrich fill data "EMA_21" Hc).
  split; [apply get_col_enrich_EMA|].
  split; [apply ewm_mean_length|].
  intros i Hi. destruct close as [|v0 rest]; [simpl in Hi; lia|].
  unfold ewm_mean. destruct i as [|i].
  - cbn [nth_error option_map firstn existsb]. now rewrite orb_false_r.
  - cbn [nth_error]. rewrite ewm_loop_defined by (simpl in Hi; lia).
    rewrite firstn_cons. reflexivity.
Qed.

Lemma ema_defined_from_first_price_witness :
  exists ema,
    indicator_column FillPad gap_close_table "EMA_21" = Some ema
    /\ length ema = length gap_close
    /\ forall i, i < length gap_close ->
         option_map notna (nth_error ema i)
         = Some (existsb notna (firstn (S i) gap_close)).
Proof.
  apply (@ema_defined_from_first_price FillPad gap_close_table gap_close).
  reflexivity.
Defined.

(** ** No look-ahead in the other two indicators *)

Lemma ewm_loop_firstn (alpha : R) (vals : list cell) :
  forall weighted old_wt k,
    firstn k (ewm_loop alpha weighted old_wt vals)
    = ewm_loop alpha weighted old_wt (firstn k vals).
Proof.
  induction vals as [|cur rest IH]; intros weighted old_wt k.
  - destruct k; reflexivity.
  - destruct k as [|k]; [reflexivity|].
    cbn [ewm_loop firstn]. destruct weighted as [w|].
    + destruct cur as [c|]; cbn [firstn]; now rewrite IH.
    + cbn [firstn]. now rewrite IH.
Qed.

Lemma ewm_mean_firstn (com : R) (s : Series) (k : nat) :
  firstn k (ewm_mean com s) = ewm_mean com (firstn k s).
Proof.
  destruct s as [|v0 rest]; [destruct k; reflexivity|].
  destruct k as [|k]; [reflexivity|].
  unfold ewm_mean. cbn [firstn]. now rewrite ewm_loop_firstn.
Qed.

Lemma ffill_from_firstn (s : Series) :
  forall last k, firstn k (ffill_from last s) = ffill_from last (firstn k s).
Proof.
  induction s as [|[x|] s IH]; intros last k.
  - destruct k; reflexivity.
  - destruct k as [|k]; [reflexivity|]. cbn [ffill_from firstn].
    now rewrite IH.
  - destruct k as [|k]; [reflexivity|]. cbn [ffill_from firstn].
    now rewrite IH.
Qed.

Lemma zip_shift_firstn (A B : Type) (f : A -> A -> B) (l : list A) :
  forall x k,
    firstn k (zip_with f l (x :: l)) = zip_with f (firstn k l) (x :: firstn k l).
Proof.
  induction l as [|a l IH]; intros x k.
  - destruct k; reflexivity.
  - destruct k as [|k]; [reflexivity|].
    cbn [zip_with firstn]. now rewrite IH.
Qed.

Lemma pct_change_firstn (fill : fill_method) (s : Series) (k : nat) :
  firstn k (pct_change fill s) = pct_change fill (firstn k s).
Proof.
  unfold pct_change. rewrite !zip_shift_removelast, zip_shift_firstn.
  destruct fill; [|reflexivity].
  unfold ffill. now rewrite ffill_from_firstn.
Qed.

Lemma nth_error_prefix (A : Type) (l : list A) (i : nat) :
  nth_error l i = nth_error (firstn (S i) l) i.
Proof.
  rewrite nth_error_firstn.
  destruct (Nat.ltb_spec i (S i)); [reflexivity | lia].
Qed.

(** Like [SMA_50], the cells of [EMA_21] and [Volatility_50] at row [i]
    depend on the closing prices of the rows [<= i] only: two [Close]
    columns that agree up to row [i] give the same two cells there. *)
Theorem ema_and_volatility_no_lookahead (fill : fill_method)
        (d1 d2 : DataFrame) (s1 s2 : Series) (i : nat) :
  get_col "Close" d1 = Some s1 ->
  get_col "Close" d2 = Some s2 ->
  (forall j, j <= i -> nth_error s1 j = nth_error s2 j) ->
  exists ema1 ema2 vol1 vol2,
    indicator_column fill d1 "EMA_21" = Some ema1
    /\ indicator_column fill d2 "EMA_21" = Some ema2
    /\ indicator_column fill d1 "Volatility_50" = Some vol1
    /\ indicator_column fill d2 "Volatility_50" = Some vol2
    /\ nth_error ema1 i = nth_error ema2 i
    /\ nth_error vol1 i = nth_error vol2 i.
Proof.
  intros H1 H2 Hagree.
  assert (firstn (S i) s1 = firstn (S i) s2) as Hpre
      by (apply agree_firstn; intros j Hj; apply Hagree; lia).
  exists (ewm_mean 21 s1), (ewm_mean 21 s2),
         (rolling_std 50 (returns_of fill s1)),
         (rolling_std 50 (returns_of fill s2)).
  rewrite !(indicator_column_enrich fill d1 _ H1).
  rewrite !(indicator_column_enrich fill d2 _ H2).
  rewrite !get_col_enrich_EMA, !get_col_enrich_Vol.
  repeat (split; [reflexivity|]).
  split.
  - rewrite (nth_error_prefix (ewm_mean 21 s1)).
    rewrite (nth_error_prefix (ewm_mean 21 s2)).
    now rewrite !ewm_mean_firstn, Hpre.
  - rewrite !rolling_std_exact by lia. unfold rolling_std_two_pass.
    apply rolling_causal. intros j Hj.
    assert (firstn (S j) s1 = firstn (S j) s2) as Hj'
        by (apply agree_firstn; intros m Hm; apply Hagree; lia).
    rewrite (nth_error_prefix (returns_of fill s1)).
    rewrite (nth_error_prefix (returns_of fill s2)).
    unfold returns_of, prep_values.
    now rewrite !firstn_map, !pct_change_firstn, Hj'.
Qed.

Lemma ema_and_volatility_no_lookahead_witness :
  exists ema1 ema2 vol1 vol2,
    indicator_column FillPad (flat_table 51) "EMA_21" = Some ema1
    /\ indicator_column FillPad
         (mkFrame (dates 52)
            [("Close"%string, map Some (flat_prices 51) ++ [Some 7%R])])
         "EMA_21" = Some ema2
    /\ indicator_column FillPad (flat_table 51) "Volatility_50" = Some vol1
    /\ indicator_column FillPad
         (mkFrame (dates 52)
            [("Close"%string, map Some (flat_prices 51) ++ [Some 7%R])])
         "Volatility_50" = Some vol2
    /\ nth_error ema1 50 = nth_error ema2 50
    /\ nth_error vol1 50 = nth_error vol2 50.
Proof.
  apply (@ema_and_volatility_no_lookahead FillPad (flat_table 51)
           (mkFrame (dates 52)
              [("Close"%string, map Some (flat_prices 51) ++ [Some 7%R])])
           (map Some (flat_prices 51))
           (map Some (flat_prices 51) ++ [Some 7%R]) 50).
  - reflexivity.
  - reflexivity.
  - intros j Hj. symmetry. apply nth_error_app1.
    rewrite length_map, length_flat_prices. lia.
Defined.
